(** * SchedulingApp: the two schedule servers, embedded and verified

    The repository holds two stand-alone Express scripts that answer
    [GET /schedule?name=...] from a spreadsheet kept in memory:

    - [server.js]: loads [uploads/schedule.xlsx] once at start-up, matches
      names by case-insensitive substring, groups the result by day
      (module [Permissive]);
    - the upload script ([unnamed/part_000]): accepts uploads on
      [POST /admin/upload], keeps five trimmed string columns, matches names
      by case-insensitive equality (module [Strict]).

    Module [Js] holds the fragment of JavaScript both scripts rely on:
    strings, primitive values and their coercions, exceptions, objects used
    as dictionaries, [Array.prototype.sort].

    Modelling conventions.
    - A JavaScript string is a [string]; each character stands for one
      UTF-16 code unit in the range U+0000..U+00FF, and [trim] and
      [toLowerCase] are the ECMAScript functions restricted to that range.
    - A JavaScript number is represented by its canonical [Number::toString]
      text: that text decides everything the scripts do with a number
      (truthiness, [String(n)], use as a property key).
    - The [xlsx] and [multer] packages are not part of the repository. A
      worksheet is represented by what [XLSX.utils.sheet_to_json] returns for
      it in the mode the script asks for; [multer] is modelled by its
      documented contract around the callbacks the script supplies.
    - A request is handled atomically (one handler run, no interleaving). *)

From Stdlib Require Import ZArith NArith Ascii String List Bool Lia.
From Stdlib Require Import DecimalString Sorted.
From stdpp Require Import base option list sorting gmap strings.

Local Open Scope Z_scope.
Local Set Warnings "-register-all".

(** ** JavaScript fragment *)

Module Js.

(** *** Exceptions *)

Inductive error : Type :=
| Error (message : string)
| TypeError (message : string).

Definition message_of (e : error) : string :=
  match e with
  | Error m => m
  | TypeError m => m
  end.

Inductive result (A : Type) : Type :=
| Ok (a : A)
| Throw (e : error).
Arguments Ok {A} a.
Arguments Throw {A} e.

Definition bind {A B : Type} (m : result A) (k : A → result B) : result B :=
  match m with
  | Ok a => k a
  | Throw e => Throw e
  end.

(** [try { body } catch (err) { handler }] *)
Definition try_catch {A : Type} (body : result A) (handler : error → result A)
  : result A :=
  match body with
  | Ok a => Ok a
  | Throw e => handler e
  end.

Notation "'let*' x ':=' m 'in' k" := (bind m (λ x, k))
  (at level 10, x pattern, m at level 100, k at level 200, only parsing).

(** *** Strings *)

Definition DQ : string := String "034"%char "".

(** Templates are written with an apostrophe where the source has a double
    quote (no template of either script contains an apostrophe). *)
Fixpoint replaceAll (s : string) (c : ascii) (r : string) : string :=
  match s with
  | EmptyString => EmptyString
  | String a s' =>
      (if Ascii.eqb a c then r else String a EmptyString) +:+ replaceAll s' c r
  end.

Definition tpl (s : string) : string := replaceAll s "'"%char DQ.

(** WhiteSpace and LineTerminator code units below U+0100:
    TAB, LF, VT, FF, CR, SP, NBSP. *)
Definition is_ws (c : ascii) : bool :=
  match c with
  | "009" | "010" | "011" | "012" | "013" | " " | "160" => true
  | _ => false
  end%char.

Fixpoint trimStart (s : string) : string :=
  match s with
  | EmptyString => EmptyString
  | String c s' => if is_ws c then trimStart s' else s
  end.

Fixpoint trimEnd (s : string) : string :=
  match s with
  | EmptyString => EmptyString
  | String c s' =>
      match trimEnd s' with
      | EmptyString => if is_ws c then EmptyString else String c EmptyString
      | r => String c r
      end
  end.

Definition trim (s : string) : string := trimEnd (trimStart s).

(** Upper-case letters below U+0100: A..Z, and U+00C0..U+00DE except the
    multiplication sign U+00D7. Their lower-case forms are 32 above. *)
Definition is_upper (c : ascii) : bool :=
  let n := N_of_ascii c in
  ((65 <=? n) && (n <=? 90) || (192 <=? n) && (n <=? 222) && negb (n =? 215))%N.

Definition lower_char (c : ascii) : ascii :=
  if is_upper c then ascii_of_N (N_of_ascii c + 32) else c.

Fixpoint toLowerCase (s : string) : string :=
  match s with
  | EmptyString => EmptyString
  | String c s' => String (lower_char c) (toLowerCase s')
  end.

Fixpoint startsWith (s q : string) : bool :=
  match q, s with
  | EmptyString, _ => true
  | String _ _, EmptyString => false
  | String b q', String a s' => Ascii.eqb a b && startsWith s' q'
  end.

(** [s.includes(q)] *)
Fixpoint includes (s q : string) : bool :=
  startsWith s q ||
  match s with
  | EmptyString => false
  | String _ s' => includes s' q
  end.

Definition is_empty (s : string) : bool :=
  match s with EmptyString => true | _ => false end.

Fixpoint join (sep : string) (l : list string) : string :=
  match l with
  | [] => ""
  | [x] => x
  | x :: rest => x +:+ sep +:+ join sep rest
  end.

Definition string_of_nat (n : nat) : string :=
  NilEmpty.string_of_uint (Nat.to_uint n).

(** *** Primitive values held in spreadsheet cells and row objects *)

Inductive value : Type :=
| VUndefined
| VNull
| VBool (b : bool)
| VNum (repr : string)
| VStr (s : string).

(** ToBoolean: [+0], [-0] (both print as 0) and [NaN] are the falsy numbers. *)
Definition truthy (v : value) : bool :=
  match v with
  | VUndefined | VNull => false
  | VBool b => b
  | VNum r => negb (String.eqb r "0" || String.eqb r "NaN")
  | VStr s => negb (is_empty s)
  end.

(** [v || d] *)
Definition or_else (v d : value) : value := if truthy v then v else d.

(** [v ?? d] *)
Definition nullish (v d : value) : value :=
  match v with
  | VUndefined | VNull => d
  | _ => v
  end.

(** [String(v)] *)
Definition String_ (v : value) : string :=
  match v with
  | VUndefined => "undefined"
  | VNull => "null"
  | VBool true => "true"
  | VBool false => "false"
  | VNum r => r
  | VStr s => s
  end.

(** An object literal used as a record: own properties only matter for the
    field names the scripts read, none of which [Object.prototype] has. *)
Definition get (o : gmap string value) (k : string) : value :=
  default VUndefined (o !! k).

(** [a[i]] on an array: [undefined] out of range. *)
Definition at_ (a : list value) (i : nat) : value :=
  default VUndefined (a !! i).

(** *** Query-string parameters, as Express hands them over *)

Inductive qval : Type :=
| QStr (s : string)
| QArr (l : list qval)
| QObj.

Fixpoint qToString (q : qval) : string :=
  match q with
  | QStr s => s
  | QArr l => join "," (map qToString l)
  | QObj => "[object Object]"
  end.

Definition qtruthy (q : qval) : bool :=
  match q with
  | QStr s => negb (is_empty s)
  | _ => true
  end.

(** [req.query.name]: [None] is [undefined]. *)
Definition param : Type := option qval.

(** [String(p || "")], also [(p || "").toString()] *)
Definition param_or_empty (p : param) : string :=
  match p with
  | Some q => if qtruthy q then qToString q else ""
  | None => ""
  end.

(** [String(p ?? "")] *)
Definition param_nullish_empty (p : param) : string :=
  match p with
  | Some q => qToString q
  | None => ""
  end.

(** *** Array.prototype.sort with a comparator

    The comparator the script passes is consistent, so the result is the
    stable sorted arrangement; insertion from the right computes it. *)
Section Sort.
Context {A : Type} (cmp : A → A → Z).

Fixpoint sort_insert (x : A) (l : list A) : list A :=
  match l with
  | [] => [x]
  | y :: l' => if cmp x y <=? 0 then x :: l else y :: sort_insert x l'
  end.

Fixpoint sort (l : list A) : list A :=
  match l with
  | [] => []
  | x :: l' => sort_insert x (sort l')
  end.
End Sort.

(** *** Plain objects used as dictionaries *)

(** The properties every object literal inherits from [Object.prototype];
    each one is a function or an object, hence truthy and without [push]. *)
Definition objectPrototypeKeys : list string :=
  [ "constructor"; "__defineGetter__"; "__defineSetter__"; "hasOwnProperty";
    "__lookupGetter__"; "__lookupSetter__"; "isPrototypeOf";
    "propertyIsEnumerable"; "toString"; "valueOf"; "__proto__";
    "toLocaleString" ].

Definition inherited (k : string) : bool :=
  existsb (String.eqb k) objectPrototypeKeys.

(** Own properties in creation order. *)
Definition dict (V : Type) : Type := list (string * V).

Fixpoint own {V : Type} (d : dict V) (k : string) : option V :=
  match d with
  | [] => None
  | (k', v) :: d' => if String.eqb k' k then Some v else own d' k
  end.

Fixpoint update {V : Type} (d : dict V) (k : string) (f : V → V) : dict V :=
  match d with
  | [] => []
  | (k', v) :: d' =>
      if String.eqb k' k then (k', f v) :: d' else (k', v) :: update d' k f
  end.

Fixpoint digits_value (s : string) (acc : N) : option N :=
  match s with
  | EmptyString => Some acc
  | String c s' =>
      let n := N_of_ascii c in
      if ((48 <=? n) && (n <=? 57))%N
      then digits_value s' (acc * 10 + (n - 48))%N
      else None
  end.

(** Array index: canonical decimal text of an integer below 2^32 - 1. *)
Definition array_index (s : string) : option N :=
  match s with
  | EmptyString => None
  | String "0" EmptyString => Some 0%N
  | String "0" _ => None
  | _ =>
      match digits_value s 0 with
      | Some n => if (n <=? 4294967294)%N then Some n else None
      | None => None
      end
  end.

Definition is_array_index (s : string) : bool :=
  match array_index s with Some _ => true | None => false end.

Definition index_value (s : string) : Z :=
  match array_index s with Some n => Z.of_N n | None => 0 end.

(** [Object.keys(d)]: array-index keys in ascending numeric order, then the
    other keys in creation order. *)
Definition Object_keys {V : Type} (d : dict V) : list string :=
  let ks := map fst d in
  sort (λ a b, index_value a - index_value b) (filter (λ k, is_array_index k = true) ks)
  ++ filter (λ k, is_array_index k = false) ks.

(** [a.indexOf(x)] on an array of strings *)
Fixpoint indexOf (a : list string) (x : string) : Z :=
  match a with
  | [] => -1
  | y :: a' =>
      if String.eqb y x then 0
      else let i := indexOf a' x in if i <? 0 then -1 else i + 1
  end.

End Js.

(** ** The upload directory *)

Module Fs.

(** What [XLSX.readFile] makes of a file: it throws, or it returns a workbook
    with its worksheets in order. [S] is the representation of a worksheet. *)
Inductive content (S : Type) : Type :=
| Unreadable
| Workbook (sheets : list S).
Arguments Unreadable {S}.
Arguments Workbook {S} sheets.

Record file (S : Type) : Type := File { mtime : Z; data : content S }.
Arguments File {S} mtime data.
Arguments mtime {S} f.
Arguments data {S} f.

(** [XLSX.readFile(path)] on an existing file *)
Definition readFile {S : Type} (f : file S) : Js.result (list S) :=
  match data f with
  | Unreadable => Js.Throw (Js.Error "File is not a readable workbook")
  | Workbook sheets => Js.Ok sheets
  end.

(** [workbook.Sheets[workbook.SheetNames[0]]] followed by [sheet_to_json]:
    a workbook without sheets gives [undefined], which [sheet_to_json] turns
    into the empty array. *)
Definition first_sheet_rows {R : Type} (sheets : list (list R)) : list R :=
  match sheets with
  | [] => []
  | sheet :: _ => sheet
  end.

Definition schedule_xlsx : string := "schedule.xlsx".

End Fs.

(** ** server.js *)

Module Permissive.
Import Js.

(** A row object of [XLSX.utils.sheet_to_json(sheet)]: header text to raw
    cell value, empty cells left out. *)
Abbreviation row := (gmap string value).

(** A worksheet, as [sheet_to_json(sheet)] returns it. *)
Abbreviation sheet := (list row).

Inductive message : Type :=
| Msg_not_found          (* schedule.xlsx not found at: ... *)
| Msg_loaded (n : nat)   (* Loaded n schedule rows from ... *)
| Msg_read_failed (e : error). (* Failed to read schedule.xlsx: ... *)

Inductive event : Type :=
| Call_loadSchedule
| Console_log (m : message)
| Console_error (m : message).

(** [scheduleData] is the script's global; [trace] records the calls of
    [loadSchedule] and the console output, oldest first. *)
Record state : Type := State {
  scheduleData : list row;
  trace : list event
}.

Definition emit (e : event) (st : state) : state :=
  State (scheduleData st) (trace st ++ [e]).

Definition set_scheduleData (rows : list row) (st : state) : state :=
  State rows (trace st).

Definition is_load (e : event) : bool :=
  match e with Call_loadSchedule => true | _ => false end.

(** Number of calls of [loadSchedule] so far. *)
Definition reloads (st : state) : nat :=
  length (List.filter is_load (trace st)).

Definition escapeHtml (value : string) : string :=
  replaceAll
    (replaceAll
      (replaceAll
        (replaceAll
          (replaceAll value "&" "&amp;")
          "<" "&lt;")
        ">" "&gt;")
      "034" "&quot;")
    "'" "&#039;".

Definition loadSchedule (disk : gmap string (Fs.file sheet)) (st : state)
  : result state :=
  let st := emit Call_loadSchedule st in
  match disk !! Fs.schedule_xlsx with
  | None =>
      let st := emit (Console_log Msg_not_found) st in
      Ok (set_scheduleData [] st)
  | Some f =>
      try_catch
        (let* workbook := Fs.readFile f in
         let st := set_scheduleData (Fs.first_sheet_rows workbook) st in
         Ok (emit (Console_log (Msg_loaded (length (scheduleData st)))) st))
        (λ err,
           let st := emit (Console_error (Msg_read_failed err)) st in
           Ok (set_scheduleData [] st))
  end.

Record response : Type := Response { status : nat; body : string }.

(** [String(req.query.name || "").trim().toLowerCase()] *)
Definition nameQuery (name : param) : string :=
  toLowerCase (trim (param_or_empty name)).

(** [String(row.Name || "")] *)
Definition nameText (r : row) : string :=
  String_ (or_else (get r "Name") (VStr "")).

Definition name_matches (q : string) (r : row) : bool :=
  includes (toLowerCase (nameText r)) q.

(** The rows the handler goes on with (lines 112 to 119). *)
Definition matchingRows (st : state) (name : param) : list row :=
  let q := nameQuery name in
  if is_empty q then scheduleData st
  else List.filter (name_matches q) (scheduleData st).

(** The property key of [row.Day || "Unknown"]. *)
Definition dayKey (r : row) : string :=
  String_ (or_else (get r "Day") (VStr "Unknown")).

(** What [days[day]] evaluates to. *)
Inductive slot : Type :=
| Own_array (rows : list row)
| Inherited_member
| Undefined_slot.

Definition days_get (days : dict (list row)) (day : string) : slot :=
  match own days day with
  | Some rows => Own_array rows
  | None => if inherited day then Inherited_member else Undefined_slot
  end.

(** [if (!days[day]) days[day] = []; days[day].push(row);] *)
Definition group_step (days : dict (list row)) (r : row)
  : result (dict (list row)) :=
  let day := dayKey r in
  let days :=
    match days_get days day with
    | Undefined_slot => days ++ [(day, [])]
    | _ => days
    end in
  match days_get days day with
  | Own_array _ => Ok (update days day (λ rows, rows ++ [r]))
  | _ => Throw (TypeError "days[day].push is not a function")
  end.

Fixpoint group_rows (days : dict (list row)) (rows : list row)
  : result (dict (list row)) :=
  match rows with
  | [] => Ok days
  | r :: rows' =>
      let* days := group_step days r in
      group_rows days rows'
  end.

Definition dayOrder : list string :=
  ["Monday"; "Tuesday"; "Wednesday"; "Thursday"; "Friday"; "Saturday"; "Sunday"].

Definition compareDays (a b : string) : Z :=
  indexOf dayOrder a - indexOf dayOrder b.

Definition sortedDays (days : dict (list row)) : list string :=
  sort compareDays (Object_keys days).

Definition cell (r : row) (k : string) : string :=
  escapeHtml (String_ (nullish (or_else (get r k) (VStr "")) (VStr ""))).

Definition row_html (r : row) : string :=
  "<tr>
        <td><strong>" +:+ cell r "Time" +:+ "</strong></td>
        <td>" +:+ cell r "Activity" +:+ "</td>
        <td>" +:+ cell r "Description" +:+ "</td>
        <td>" +:+ cell r "Location" +:+ "</td>
      </tr>".

Definition day_heading (day : string) : string :=
  tpl "<h3 style='color: #0066ff; margin: 32px 0 8px;'>" +:+ escapeHtml day +:+ "</h3>".

Definition table_open : string :=
  tpl "<table border='1' cellpadding='10' cellspacing='0' style='border-collapse: collapse; width: 100%; background: #fff;'>
      <tr><th>Time</th><th>Activity</th><th>Description</th><th>Location</th></tr>".

(** One pass of [sortedDays.forEach]. *)
Definition add_day (days : dict (list row)) (html : string) (day : string)
  : string :=
  let html := html +:+ day_heading day in
  let html := html +:+ table_open in
  let html :=
    fold_left (λ html r, html +:+ row_html r) (default [] (own days day)) html in
  html +:+ "</table>".

Definition page_open : string :=
  tpl "<div style='font-family: system-ui, sans-serif;'>".

Definition page_title (name : param) (q : string) (n : nat) : string :=
  if is_empty q then "<h2>Full Schedule</h2>"
  else "<h2>Schedule for <strong>" +:+ escapeHtml (param_nullish_empty name)
       +:+ "</strong> (" +:+ string_of_nat n +:+ " shift"
       +:+ (if (1 <? n)%nat then "s" else "") +:+ ")</h2>".

Definition page_close : string :=
  tpl "
  <hr style='margin: 32px 0;' />
  <h3>Event Details</h3>
  <iframe src='/pdfviewer' style='width: 100%; height: 800px; border: 1px solid #ddd; border-radius: 8px;' loading='lazy'></iframe>
  </div>".

Definition not_found_body (name : param) : string :=
  tpl "<span class='error'>No schedule found for <strong>"
  +:+ escapeHtml (param_nullish_empty name) +:+ "</strong>.</span>".

(** Lines 127 to 172: grouping, ordering and the page. *)
Definition render (name : param) (q : string) (rows : list row)
  : result response :=
  let* days := group_rows [] rows in
  let html := page_open in
  let html := html +:+ page_title name q (length rows) in
  let html := fold_left (add_day days) (sortedDays days) html in
  let html := html +:+ page_close in
  Ok (Response 200 html).

(** [app.get("/schedule", ...)]; a thrown exception leaves the handler and
    Express answers with status 500. *)
Definition get_schedule (st : state) (name : param) : result response :=
  let q := nameQuery name in
  let rows := matchingRows st name in
  if negb (is_empty q) && (length rows =? 0)%nat
  then Ok (Response 404 (not_found_body name))
  else render name q rows.

(** Lines 33 and 67: the script starts with the empty table and calls
    [loadSchedule] once before it serves requests. *)
Definition startup (disk : gmap string (Fs.file sheet)) : result state :=
  loadSchedule disk (State [] []).

(** The handler as a step of the server: it assigns no global and calls
    nothing that does, so the state it leaves is the state it found. *)
Definition handle_get_schedule (st : state) (name : param)
  : state * result response :=
  (st, get_schedule st name).

End Permissive.

(** ** The upload script (unnamed/part_000) *)

Module Strict.
Import Js.

Abbreviation row := (gmap string value).

(** A worksheet, as [sheet_to_json(sheet, { header: 1, defval: "" })] returns
    it: one array of cell values per spreadsheet row, the header row first. *)
Abbreviation sheet := (list (list value)).

Record world : Type := World {
  disk : gmap string (Fs.file sheet);  (* the uploads directory *)
  now : Z                              (* what [new Date()] reads *)
}.

Inductive message : Type :=
| Msg_no_file            (* No schedule file found yet. *)
| Msg_empty              (* Excel file is empty or has only headers. *)
| Msg_loaded (n : nat)   (* Schedule loaded: n entries at ... *)
| Msg_failed (e : string) (* Failed to load schedule: ... *)
| Msg_changed.           (* File changed on disk, reloading... *)

Inductive event : Type :=
| Call_loadSchedule
| Console_log (m : message)
| Console_error (m : message).

Record state : Type := State {
  scheduleData : list row;
  lastLoadTime : option Z;
  trace : list event
}.

Definition emit (e : event) (st : state) : state :=
  State (scheduleData st) (lastLoadTime st) (trace st ++ [e]).

Definition set_scheduleData (rows : list row) (st : state) : state :=
  State rows (lastLoadTime st) (trace st).

Definition set_lastLoadTime (t : Z) (st : state) : state :=
  State (scheduleData st) (Some t) (trace st).

Definition is_load (e : event) : bool :=
  match e with Call_loadSchedule => true | _ => false end.

Definition reloads (st : state) : nat :=
  length (List.filter is_load (trace st)).

(** [fs.stat(FILE_PATH)] *)
Definition stat (w : world) : result (Fs.file sheet) :=
  match disk w !! Fs.schedule_xlsx with
  | Some f => Ok f
  | None => Throw (Error "ENOENT: no such file or directory")
  end.

(** [String(r[i] || "").trim()] *)
Definition field (r : list value) (i : nat) : value :=
  VStr (trim (String_ (or_else (at_ r i) (VStr "")))).

(** The object literal of lines 68 to 74. *)
Definition make_row (r : list value) : row :=
  {[ "Name" := field r 0;
     "Day" := field r 1;
     "Time" := field r 2;
     "Activity" := field r 3;
     "Description" := field r 4 ]}.

Definition loadSchedule (w : world) (st : state) : result state :=
  let st := emit Call_loadSchedule st in
  try_catch
    (match try_catch (let* f := stat w in Ok (Some f)) (λ _, Ok None) with
     | Throw e => Throw e
     | Ok None =>
         let st := emit (Console_log Msg_no_file) st in
         Ok (set_scheduleData [] st)
     | Ok (Some f) =>
         let* workbook := Fs.readFile f in
         let rows := Fs.first_sheet_rows workbook in
         if (length rows <=? 1)%nat then
           let st := set_scheduleData [] st in
           Ok (emit (Console_log Msg_empty) st)
         else
           let dataRows := drop 1 rows in
           let st := set_scheduleData (map make_row dataRows) st in
           let st := set_lastLoadTime (now w) st in
           Ok (emit (Console_log (Msg_loaded (length (scheduleData st)))) st)
     end)
    (λ err,
       let st := emit (Console_error (Msg_failed (message_of err))) st in
       Ok (set_scheduleData [] st)).

(** Lines 45 and 46: the script starts with the empty table and no load
    time, and does not load anything before the first request. *)
Definition initial : state := State [] None [].

(** *** POST /admin/upload *)

(** The file part of a multipart request body. *)
Record upload : Type := Upload {
  fieldname : string;
  originalname : string;
  mimetype : string;
  size : N;
  payload : Fs.content sheet
}.

Definition allowed : list string :=
  [ "application/vnd.openxmlformats-officedocument.spreadsheetml.sheet";
    "application/vnd.ms-excel" ].

(** [fileFilter]: [Ok true] is [cb(null, true)], [Throw e] is [cb(e)]. *)
Definition fileFilter (file : upload) : result bool :=
  if existsb (String.eqb (mimetype file)) allowed then Ok true
  else Throw (Error "Only .xlsx and .xls files are allowed!").

(** [filename]: the name the storage engine writes to. *)
Definition filename (file : upload) : string := "schedule.xlsx".

Definition fileSize : N := 10 * 1024 * 1024.

(** What the middleware hands on: [next()] with [req.file] set or not, or
    [next(err)]. *)
Inductive multer_outcome : Type :=
| Next (req_file : option upload)
| Next_error (e : error).

(** [upload.single("file")], following multer: a file part under another
    field name is refused, then [fileFilter] decides, then the part is
    streamed to [destination/filename]; a part longer than [limits.fileSize]
    is refused and what was written of it is removed. *)
Definition upload_single (w : world) (part : option upload)
  : world * multer_outcome :=
  match part with
  | None => (w, Next None)
  | Some file =>
      if negb (String.eqb (fieldname file) "file")
      then (w, Next_error (Error "Unexpected field"))
      else
        match fileFilter file with
        | Throw e => (w, Next_error e)
        | Ok false => (w, Next None)
        | Ok true =>
            if (size file <=? fileSize)%N
            then (World (<[filename file := Fs.File (now w) (payload file)]> (disk w)) (now w),
                  Next (Some file))
            else (World (delete (filename file) (disk w)) (now w),
                  Next_error (Error "File too large"))
        end
  end.

Inductive json : Type :=
| Json_error (error : string)
| Json_uploaded (message : string) (entries : nat) (uploadedAt : Z).

Record upload_response : Type :=
  Upload_response { upload_status : nat; upload_body : json }.

(** [app.post("/admin/upload", upload.single("file"), handler, onError)] *)
Definition post_admin_upload (w : world) (st : state) (part : option upload)
  : world * state * result upload_response :=
  match upload_single w part with
  | (w, Next_error error) =>
      (w, st, Ok (Upload_response 400 (Json_error (message_of error))))
  | (w, Next None) =>
      (w, st, Ok (Upload_response 400 (Json_error "No file uploaded.")))
  | (w, Next (Some _)) =>
      match loadSchedule w st with
      | Throw e => (w, st, Throw e)
      | Ok st =>
          (w, st,
           Ok (Upload_response 200
                 (Json_uploaded "Schedule uploaded and updated successfully!"
                    (length (scheduleData st)) (now w))))
      end
  end.

(** *** GET /schedule *)

Record response : Type := Response { status : nat; body : string }.

(** Lines 113 to 119: the hot reload. *)
Definition reload_if_changed (w : world) (st : state) : result state :=
  try_catch
    (let* stats := stat w in
     match lastLoadTime st with
     | Some t =>
         if t <? Fs.mtime stats
         then loadSchedule w (emit (Console_log Msg_changed) st)
         else Ok st
     | None => Ok st
     end)
    (λ _, Ok st).

(** [v.toLowerCase()] on a property value *)
Definition toLowerCase_of (v : value) : result string :=
  match v with
  | VStr s => Ok (toLowerCase s)
  | VUndefined | VNull =>
      Throw (TypeError "Cannot read properties of undefined (reading 'toLowerCase')")
  | _ => Throw (TypeError "row.Name.toLowerCase is not a function")
  end.

(** [rows.filter(p)] with a predicate that may throw *)
Fixpoint filter_rows (p : row → result bool) (rows : list row)
  : result (list row) :=
  match rows with
  | [] => Ok []
  | r :: rows' =>
      let* keep := p r in
      let* rest := filter_rows p rows' in
      Ok (if keep then r :: rest else rest)
  end.

(** [row => row.Name.toLowerCase() === lowerName] *)
Definition name_equals (lowerName : string) (r : row) : result bool :=
  let* n := toLowerCase_of (get r "Name") in
  Ok (String.eqb n lowerName).

Definition escape_char (c : ascii) : string :=
  match c with
  | "&"%char => "&amp;"
  | "<"%char => "&lt;"
  | ">"%char => "&gt;"
  | "034"%char => "&quot;"
  | "'"%char => "&#39;"
  | _ => String c EmptyString
  end.

Fixpoint replace_special (s : string) : string :=
  match s with
  | EmptyString => EmptyString
  | String c s' => escape_char c +:+ replace_special s'
  end.

(** [escape]: [String(str).replace(re, c => entity[c])], where [re] matches
    each of the five characters ampersand, less-than, greater-than, double
    quote and apostrophe. *)
Definition escape (v : value) : string := replace_special (String_ v).

Definition row_html (r : row) : string :=
  "
    <tr>
      <td>" +:+ escape (get r "Day") +:+ "</td>
      <td>" +:+ escape (get r "Time") +:+ "</td>
      <td>" +:+ escape (get r "Activity") +:+ "</td>
      <td>" +:+ escape (get r "Description") +:+ "</td>
    </tr>
  ".

Definition page (first_name : value) (n : nat) (rows : string) : string :=
  "
    <style>
      body { font-family: system-ui, sans-serif; padding: 1rem; }
      table { width: 100%; border-collapse: collapse; margin-top: 1rem; }
      th, td { border: 1px solid #666; padding: 0.8rem; text-align: left; }
      th { background: #f0f0f0; }
      tr:nth-child(even) { background: #fafafa; }
    </style>
    <h2>Schedule for " +:+ escape first_name +:+ "</h2>
    <p><strong>" +:+ string_of_nat n +:+ "</strong> entr"
  +:+ (if (1 <? n)%nat then "ies" else "y") +:+ " found.</p>
    <table>
      <thead><tr>
        <th>Day</th>
        <th>Time</th>
        <th>Activity</th>
        <th>Description</th>
      </tr></thead>
      <tbody>" +:+ rows +:+ "</tbody>
    </table>
  ".

Definition not_found_body (name : string) : string :=
  tpl "No schedule found for '" +:+ name +:+ tpl "'.".

(** The rows the handler selects (lines 128 and 129). *)
Definition matches (st : state) (name : string) : result (list row) :=
  filter_rows (name_equals (toLowerCase name)) (scheduleData st).

(** Lines 128 to 168. *)
Definition lookup_name (st : state) (name : string) : result response :=
  let* matches := matches st name in
  match matches with
  | [] => Ok (Response 404 (not_found_body name))
  | first :: _ =>
      let rows := join "" (map row_html matches) in
      Ok (Response 200 (page (get first "Name") (length matches) rows))
  end.

Definition no_data_body : string :=
  "No schedule data available yet. Please upload an Excel file first.".

(** [app.get("/schedule", ...)]: the state the handler leaves, and its
    response or the exception that escapes it. *)
Definition get_schedule (w : world) (st : state) (p : param)
  : state * result response :=
  let name := trim (param_or_empty p) in
  if is_empty name
  then (st, Ok (Response 400 "Missing or empty ?name= parameter"))
  else
    match reload_if_changed w st with
    | Throw e => (st, Throw e)
    | Ok st =>
        if (length (scheduleData st) =? 0)%nat then
          match loadSchedule w st with
          | Throw e => (st, Throw e)
          | Ok st =>
              if (length (scheduleData st) =? 0)%nat
              then (st, Ok (Response 404 no_data_body))
              else (st, lookup_name st name)
          end
        else (st, lookup_name st name)
    end.

End Strict.

(** ** Vocabulary of the specification *)

Module Spec.
Import Js.

(** No leading and no trailing whitespace. *)
Definition trimmed (s : string) : Prop :=
  (∀ c t, s = String c t → is_ws c = false) ∧
  (∀ c t, s = t +:+ String c EmptyString → is_ws c = false).

(** Two characters that are the same letter, whatever the case. *)
Definition same_letter (c d : ascii) : Prop :=
  c = d ∨ d = lower_char c ∨ c = lower_char d.

(** Equality under case-insensitive comparison. *)
Inductive ci_eq : string → string → Prop :=
| ci_eq_nil : ci_eq EmptyString EmptyString
| ci_eq_cons c d s t :
    same_letter c d → ci_eq s t → ci_eq (String c s) (String d t).

(** [q] occurs in [s] as a case-insensitive substring. *)
Definition ci_contains (s q : string) : Prop :=
  ∃ pre mid post, s = pre +:+ mid +:+ post ∧ ci_eq mid q.

(** [q] occurs in [s]. *)
Definition contains (s q : string) : Prop :=
  ∃ pre post, s = pre +:+ q +:+ post.

(** Every field of the row is a string without outer whitespace. *)
Definition clean_row (r : gmap string value) : Prop :=
  ∀ k v, r !! k = Some v → ∃ s, v = VStr s ∧ trimmed s.

(** The Name field of the row is a string. *)
Definition has_string_name (r : gmap string value) : Prop :=
  ∃ s, get r "Name" = VStr s.

(** An upload the route takes: sent under the field name the route reads,
    declared as one of the two Excel content types, at most 10 MiB long. *)
Definition accepted (file : Strict.upload) : Prop :=
  Strict.fieldname file = "file" ∧
  (Strict.mimetype file =
     "application/vnd.openxmlformats-officedocument.spreadsheetml.sheet" ∨
   Strict.mimetype file = "application/vnd.ms-excel") ∧
  (Strict.size file ≤ 10 * 1024 * 1024)%N.

(** The upload directory once [file] is stored under the canonical name. *)
Definition stored (w : Strict.world) (file : Strict.upload) : Strict.world :=
  Strict.World
    (<["schedule.xlsx" := Fs.File (Strict.now w) (Strict.payload file)]>
       (Strict.disk w))
    (Strict.now w).

(** The table [loadSchedule] of the upload script reads from the upload
    directory. *)
Definition loaded_rows (w : Strict.world) : list (gmap string value) :=
  match Strict.disk w !! Fs.schedule_xlsx with
  | Some (Fs.File _ (Fs.Workbook sheets)) =>
      map Strict.make_row (drop 1 (Fs.first_sheet_rows sheets))
  | _ => []
  end.

(** The hot-reload test of the upload script fires: the file is there and
    was modified after the last successful load. *)
Definition file_changed (w : Strict.world) (st : Strict.state) : Prop :=
  ∃ f t, Strict.disk w !! Fs.schedule_xlsx = Some f ∧
         Strict.lastLoadTime st = Some t ∧ t < Fs.mtime f.

(** The reasons the upload route gives for refusing a request. *)
Definition refusal_reasons : list string :=
  [ "No file uploaded."; "Only .xlsx and .xls files are allowed!";
    "File too large"; "Unexpected field" ].

(** The five columns of the upload script. *)
Definition five_fields : gset string :=
  {[ "Name"; "Day"; "Time"; "Activity"; "Description" ]}.

(** The characters HTML gives a meaning to occur only inside the five
    entities the scripts write. *)
Fixpoint html_safe (s : string) : Prop :=
  match s with
  | EmptyString => True
  | String c s' =>
      match c with
      | "<"%char | ">"%char | "034"%char | "'"%char => False
      | "&"%char =>
          (∃ t, s' = "amp;" +:+ t ∨ s' = "lt;" +:+ t ∨ s' = "gt;" +:+ t
                ∨ s' = "quot;" +:+ t ∨ s' = "#039;" +:+ t ∨ s' = "#39;" +:+ t)
          ∧ html_safe s'
      | _ => html_safe s'
      end
  end.

(** The text of [s] with each of the five characters written as its entity;
    [apos] is the entity for the apostrophe. *)
Fixpoint escaped (apos : string) (s : string) : string :=
  match s with
  | EmptyString => EmptyString
  | String c s' =>
      match c with
      | "&"%char => "&amp;"
      | "<"%char => "&lt;"
      | ">"%char => "&gt;"
      | "034"%char => "&quot;"
      | "'"%char => apos
      | _ => String c EmptyString
      end +:+ escaped apos s'
  end.

(** The strings of [l] one after the other. *)
Fixpoint concat_str (l : list string) : string :=
  match l with
  | [] => EmptyString
  | x :: l' => x +:+ concat_str l'
  end.

(** The rows filed under [day]. *)
Definition rows_of_day (day : string) (rows : list (gmap string value))
  : list (gmap string value) :=
  List.filter (λ r, String.eqb (Permissive.dayKey r) day) rows.

(** The heading and the table server.js writes for the group [day]. *)
Definition day_table (day : string) (rows : list (gmap string value))
  : string :=
  Permissive.day_heading day +:+ Permissive.table_open
  +:+ concat_str (map Permissive.row_html (rows_of_day day rows))
  +:+ "</table>".

(** What one pass of [sortedDays.forEach] appends for [day]. *)
Definition day_section (days : dict (list (gmap string value)))
    (day : string) : string :=
  Permissive.day_heading day +:+ Permissive.table_open
  +:+ concat_str (map Permissive.row_html (default [] (own days day)))
  +:+ "</table>".

(** A comparator that subtracts keys, and the order it sorts by. *)
Definition by_key {A : Type} (f : A → Z) (a b : A) : Z := f a - f b.

Definition key_le {A : Type} (f : A → Z) (a b : A) : Prop := f a ≤ f b.

(** [a] comes before [b] in [l]. *)
Definition before {A : Type} (a b : A) (l : list A) : Prop :=
  ∃ l1 l2 l3, l = l1 ++ a :: l2 ++ b :: l3.

(** The text of a field of a row: the text of the cell, nothing for a
    missing cell. *)
Definition field_text (v : value) : string :=
  match v with
  | VUndefined | VNull => EmptyString
  | VBool true => "true"
  | VBool false => "false"
  | VNum n => n
  | VStr s => s
  end.



(** A text made of whitespace only. *)
Fixpoint blank (s : string) : bool :=
  match s with
  | EmptyString => true
  | String c s' => is_ws c && blank s'
  end.

(** What a browser shows for an escaped text: each of the entities the
    scripts write is read back as its character. *)
Fixpoint unescape (s : string) : string :=
  match s with
  | EmptyString => EmptyString
  | String "&" (String "a" (String "m" (String "p" (String ";" t)))) =>
      String "&" (unescape t)
  | String "&" (String "l" (String "t" (String ";" t))) =>
      String "<" (unescape t)
  | String "&" (String "g" (String "t" (String ";" t))) =>
      String ">" (unescape t)
  | String "&" (String "q" (String "u" (String "o" (String "t" (String ";" t))))) =>
      String "034" (unescape t)
  | String "&" (String "#" (String "0" (String "3" (String "9" (String ";" t))))) =>
      String "'" (unescape t)
  | String "&" (String "#" (String "3" (String "9" (String ";" t)))) =>
      String "'" (unescape t)
  | String c t => String c (unescape t)
  end.

(** The rows server.js reads from the upload directory. *)
Definition permissive_loaded_rows
    (disk : gmap string (Fs.file (list (gmap string value))))
  : list (gmap string value) :=
  match disk !! Fs.schedule_xlsx with
  | Some (Fs.File _ (Fs.Workbook sheets)) => Fs.first_sheet_rows sheets
  | _ => []
  end.

(** The states the upload script can be in: the initial one, and what an
    upload or a query leaves, whatever the upload directory and the clock
    are at each request. *)
Inductive reachable : Strict.state → Prop :=
| reachable_initial : reachable Strict.initial
| reachable_upload w st part w' st' resp :
    reachable st →
    Strict.post_admin_upload w st part = (w', st', resp) →
    reachable st'
| reachable_query w st name st' resp :
    reachable st →
    Strict.get_schedule w st name = (st', resp) →
    reachable st'.

(** A table whose rows were all built by [make_row]. *)
Definition built_rows (rows : list (gmap string value)) : Prop :=
  ∃ cells, rows = map Strict.make_row cells.

End Spec.

(** ** Sample data *)

Module Sample.
Import Js.

Definition header : list value :=
  [VStr "Name"; VStr "Day"; VStr "Time"; VStr "Activity"; VStr "Description"].

Definition alice_cells : list value :=
  [VStr " Alice "; VStr "Monday"; VStr "9am"; VStr "Shift A"; VStr "";
   VStr "a sixth column"].

Definition bob_cells : list value :=
  [VStr "Bob"; VStr "Tuesday"; VNum "14"].

Definition book : Fs.content (list (list value)) :=
  Fs.Workbook [[header; alice_cells; bob_cells]].

(** The upload directory holds the workbook, written at time 5; it is now
    time 10. *)
Definition office : Strict.world :=
  Strict.World {[ "schedule.xlsx" := Fs.File 5 book ]} 10.

(** The upload script right after start-up. *)
Definition fresh : Strict.state := Strict.State [] None [].

(** The upload script after it has loaded [office]. *)
Definition loaded : Strict.state :=
  Strict.State (map Strict.make_row [alice_cells; bob_cells]) (Some 10) [].

Definition rota_upload : Strict.upload :=
  Strict.Upload "file" "rota-final.xls" "application/vnd.ms-excel" 2048 book.

(** server.js with Monday and Tuesday rows interleaved. *)
Definition interleaved_week : Permissive.state :=
  Permissive.State
    [ {[ "Name" := VStr "Alice"; "Day" := VStr "Tuesday"; "Time" := VStr "9am" ]};
      {[ "Name" := VStr "Alice"; "Day" := VStr "Monday"; "Time" := VStr "1pm" ]};
      {[ "Name" := VStr "Bob"; "Day" := VStr "Tuesday"; "Time" := VStr "2pm" ]};
      {[ "Name" := VStr "Bob"; "Day" := VStr "Monday"; "Time" := VStr "8am" ]} ]
    [].

(** server.js with a Tuesday row and a row that has no Day cell. *)
Definition day_missing : Permissive.state :=
  Permissive.State
    [ {[ "Name" := VStr "Alice"; "Day" := VStr "Tuesday"; "Time" := VStr "9am" ]};
      {[ "Name" := VStr "Alice"; "Time" := VStr "1pm" ]} ]
    [].

(** An upload that passes the filter but is no workbook. *)
Definition broken_upload : Strict.upload :=
  Strict.Upload "file" "notes.xlsx" "application/vnd.ms-excel" 12 Fs.Unreadable.

(** The upload directory after the workbook was replaced at time 20. *)
Definition office_later : Strict.world :=
  Strict.World
    {[ "schedule.xlsx" :=
         Fs.File 20 (Fs.Workbook [[header; bob_cells]]) ]} 30.

(** A row whose Name cell holds the number 0. *)
Definition zero_row : gmap string value :=
  {[ "Name" := VNum "0"; "Day" := VStr "Monday"; "Time" := VStr "9am" ]}.

(** server.js with that row as its table. *)
Definition numbered : Permissive.state := Permissive.State [zero_row] [].

(** A row whose Day cell reads toString. *)
Definition tostring_row : gmap string value :=
  {[ "Name" := VStr "Carol"; "Day" := VStr "toString"; "Time" := VStr "3pm" ]}.

(** server.js with a Tuesday row, a Monday row and that row. *)
Definition mixed_days : Permissive.state :=
  Permissive.State
    [ {[ "Name" := VStr "Alice"; "Day" := VStr "Tuesday"; "Time" := VStr "9am" ]};
      {[ "Name" := VStr "Bob"; "Day" := VStr "Monday"; "Time" := VStr "1pm" ]};
      tostring_row ]
    [].

(** server.js with one row whose Day cell reads constructor. *)
Definition prototype_day : Permissive.state :=
  Permissive.State
    [ {[ "Name" := VStr "Alice"; "Day" := VStr "constructor";
         "Time" := VStr "9am" ]} ]
    [].

End Sample.

(** * Properties *)

Import Js Spec.

(** ** The JavaScript fragment on small inputs *)

Section Examples.

Example trim_inner_space : trim "  a b  " = "a b".
Proof. reflexivity. Qed.

Example trim_only_space : trim "   " = EmptyString.
Proof. reflexivity. Qed.

Example toLowerCase_mixed : toLowerCase "HeLLo Z[" = "hello z[".
Proof. reflexivity. Qed.

Example includes_middle : includes "alice bell" "ce b" = true.
Proof. reflexivity. Qed.

Example includes_absent : includes "alice" "bob" = false.
Proof. reflexivity. Qed.

Example falsy_zero : or_else (VNum "0") (VStr EmptyString) = VStr EmptyString.
Proof. reflexivity. Qed.

Example truthy_seven : or_else (VNum "7") (VStr EmptyString) = VNum "7".
Proof. reflexivity. Qed.

Example array_param : param_or_empty (Some (QArr [QStr "a"; QStr "b"])) = "a,b".
Proof. reflexivity. Qed.

Example keys_indices_first :
  Object_keys [("b", 1); ("10", 2); ("9", 3); ("a", 4); ("01", 5)]
  = ["9"; "10"; "b"; "a"; "01"].
Proof. reflexivity. Qed.

Example sort_is_stable :
  sort Permissive.compareDays ["Tuesday"; "x"; "Monday"; "y"; "Sunday"]
  = ["x"; "y"; "Monday"; "Tuesday"; "Sunday"].
Proof. reflexivity. Qed.

Example escapeHtml_all : Permissive.escapeHtml "<a&b>'" = "&lt;a&amp;b&gt;&#039;".
Proof. reflexivity. Qed.

Example escape_all : Strict.escape (VStr "<a&b>'") = "&lt;a&amp;b&gt;&#39;".
Proof. reflexivity. Qed.

Example make_row_short :
  Strict.make_row [VStr " Bob "; VNum "0"; VBool true]
  = {[ "Name" := VStr "Bob"; "Day" := VStr EmptyString; "Time" := VStr "true";
       "Activity" := VStr EmptyString; "Description" := VStr EmptyString ]}.
Proof. reflexivity. Qed.

End Examples.

(** ** Strings *)

Section Strings.

Lemma str_app_nil_l (s : string) : EmptyString +:+ s = s.
Proof. reflexivity. Qed.

Lemma str_app_cons (c : ascii) (s t : string) :
  String c s +:+ t = String c (s +:+ t).
Proof. reflexivity. Qed.

Lemma str_app_nil_r (s : string) : s +:+ EmptyString = s.
Proof. induction s as [|c s IH]; [done|]. by rewrite str_app_cons, IH. Qed.

Lemma str_app_assoc (s t u : string) : (s +:+ t) +:+ u = s +:+ (t +:+ u).
Proof.
  induction s as [|c s IH]; [done|]. by rewrite !str_app_cons, IH.
Qed.

Lemma str_app_eq_nil (s t : string) :
  s +:+ t = EmptyString → s = EmptyString ∧ t = EmptyString.
Proof. destruct s; [done|]. rewrite str_app_cons. discriminate. Qed.

Lemma is_empty_true (s : string) : is_empty s = true ↔ s = EmptyString.
Proof. destruct s; simpl; split; intros; done. Qed.

Lemma is_empty_false (s : string) : is_empty s = false ↔ s ≠ EmptyString.
Proof. destruct s; simpl; split; intros; done. Qed.

(** *** trim *)

Lemma trimStart_head (s t : string) (c : ascii) :
  trimStart s = String c t → is_ws c = false.
Proof.
  induction s as [|a s IH]; simpl; [done|].
  destruct (is_ws a) eqn:Ha; [done|]. intros [= <- _]. done.
Qed.

Lemma trimEnd_head (s t : string) (c : ascii) :
  trimEnd s = String c t → ∃ t', s = String c t'.
Proof.
  destruct s as [|a s]; simpl; [done|].
  destruct (trimEnd s); [destruct (is_ws a)|]; intros [= <- _]; eauto.
Qed.

Lemma trimEnd_last (s t : string) (c : ascii) :
  trimEnd s = t +:+ String c EmptyString → is_ws c = false.
Proof.
  revert t. induction s as [|a s IH]; intros t; simpl.
  - destruct t; done.
  - destruct (trimEnd s) as [|b r] eqn:E.
    + destruct (is_ws a) eqn:Ha.
      * destruct t; done.
      * destruct t as [|x t]; rewrite ?str_app_nil_l, ?str_app_cons.
        -- intros [= <-]. done.
        -- intros [= _ H]. destruct t; done.
    + destruct t as [|x t]; rewrite ?str_app_nil_l, ?str_app_cons.
      * done.
      * intros [= _ H]. by apply (IH t).
Qed.

Lemma trim_trimmed (s : string) : trimmed (trim s).
Proof.
  split; intros c t H.
  - apply trimEnd_head in H as [t' H]. by apply trimStart_head in H.
  - by apply trimEnd_last in H.
Qed.

(** *** toLowerCase *)

Lemma lower_char_idem (c : ascii) : lower_char (lower_char c) = lower_char c.
Proof. by destruct c as [[] [] [] [] [] [] [] []]. Qed.

Lemma lower_char_recover (c : ascii) :
  is_upper c = true →
  ascii_of_N (N_of_ascii (lower_char c) - 32) = c.
Proof. by destruct c as [[] [] [] [] [] [] [] []]. Qed.

Lemma lower_char_fixed (c : ascii) : is_upper c = false → lower_char c = c.
Proof. unfold lower_char. by intros ->. Qed.

Lemma lower_char_eq (c d : ascii) :
  lower_char c = lower_char d ↔ same_letter c d.
Proof.
  split.
  - intros H. unfold same_letter.
    destruct (is_upper c) eqn:Hc, (is_upper d) eqn:Hd.
    + left. rewrite <- (lower_char_recover c Hc), <- (lower_char_recover d Hd).
      by rewrite H.
    + right; left. by rewrite H, lower_char_fixed.
    + right; right. by rewrite <- H, lower_char_fixed.
    + left. by rewrite !lower_char_fixed in H.
  - intros [-> | [-> | ->]]; by rewrite ?lower_char_idem.
Qed.

Lemma toLowerCase_eq (s t : string) :
  toLowerCase s = toLowerCase t ↔ ci_eq s t.
Proof.
  split.
  - revert t. induction s as [|c s IH]; intros [|d t]; simpl; try done.
    + constructor.
    + intros [= Hc Hs]. constructor; [by apply lower_char_eq | by apply IH].
  - induction 1 as [|c d s t Hc _ IH]; simpl; [done|].
    f_equal; [by apply lower_char_eq | done].
Qed.

Lemma toLowerCase_app (s t : string) :
  toLowerCase (s +:+ t) = toLowerCase s +:+ toLowerCase t.
Proof.
  induction s as [|c s IH]; [done|].
  rewrite str_app_cons. simpl. by rewrite IH, str_app_cons.
Qed.

Lemma toLowerCase_app_inv (s a b : string) :
  toLowerCase s = a +:+ b →
  ∃ s1 s2, s = s1 +:+ s2 ∧ toLowerCase s1 = a ∧ toLowerCase s2 = b.
Proof.
  revert s. induction a as [|c a IH]; intros s H.
  - exists EmptyString, s. done.
  - destruct s as [|d s]; [done|]. rewrite str_app_cons in H. simpl in H.
    injection H as Hc Hs. destruct (IH _ Hs) as (s1 & s2 & -> & H1 & H2).
    exists (String d s1), s2. rewrite str_app_cons. simpl. by rewrite Hc, H1.
Qed.

Lemma toLowerCase_empty (s : string) :
  is_empty (toLowerCase s) = is_empty s.
Proof. by destruct s. Qed.

(** *** includes *)

Lemma startsWith_spec (s q : string) :
  startsWith s q = true ↔ ∃ post, s = q +:+ post.
Proof.
  revert s. induction q as [|b q IH]; intros s.
  - destruct s; simpl; split; eauto.
  - destruct s as [|a s]; simpl.
    + split; [done|]. intros [post H]. by rewrite str_app_cons in H.
    + rewrite andb_true_iff, Ascii.eqb_eq, IH. split.
      * intros [-> [post ->]]. exists post. by rewrite str_app_cons.
      * intros [post H]. rewrite str_app_cons in H. injection H as -> ->. eauto.
Qed.

Lemma includes_spec (s q : string) : includes s q = true ↔ contains s q.
Proof.
  unfold contains. induction s as [|a s IH].
  - cbn [includes]. rewrite orb_false_r, startsWith_spec. split.
    + intros [post H]. by exists EmptyString, post.
    + intros (pre & post & H). symmetry in H.
      apply str_app_eq_nil in H as [-> H].
      apply str_app_eq_nil in H as [-> ->]. by exists EmptyString.
  - cbn [includes]. rewrite orb_true_iff, startsWith_spec, IH. split.
    + intros [[post H] | (pre & post & H)].
      * by exists EmptyString, post.
      * exists (String a pre), post. by rewrite str_app_cons, H.
    + intros (pre & post & H). destruct pre as [|c pre].
      * left. by exists post.
      * right. rewrite str_app_cons in H. injection H as _ ->. eauto.
Qed.

Lemma includes_lower (s q : string) :
  includes (toLowerCase s) (toLowerCase q) = true ↔ ci_contains s q.
Proof.
  rewrite includes_spec. unfold contains, ci_contains. split.
  - intros (pre & post & H).
    apply toLowerCase_app_inv in H as (s1 & s2 & -> & H1 & H2).
    apply toLowerCase_app_inv in H2 as (m & s3 & -> & Hm & H3).
    exists s1, m, s3. split; [done | by apply toLowerCase_eq].
  - intros (pre & mid & post & -> & Hm). apply toLowerCase_eq in Hm.
    exists (toLowerCase pre), (toLowerCase post).
    by rewrite !toLowerCase_app, Hm.
Qed.

End Strings.

(** ** Name matching *)

Section Matching.

Lemma filter_rows_total (lowerName : string) (rows : list (gmap string value)) :
  Forall has_string_name rows →
  Strict.filter_rows (Strict.name_equals lowerName) rows =
  Ok (List.filter
        (λ r, String.eqb (toLowerCase (String_ (get r "Name"))) lowerName) rows).
Proof.
  induction 1 as [|r rows [s Hs] _ IH]; [done|].
  cbn [Strict.filter_rows List.filter]. unfold Strict.name_equals at 1.
  rewrite Hs, IH. cbn. by destruct (String.eqb _ _).
Qed.

Lemma strict_matches_iff (st : Strict.state) (name : string)
    (r : gmap string value) :
  Forall has_string_name (Strict.scheduleData st) →
  ∃ rows, Strict.matches st name = Ok rows ∧
    (In r rows ↔
     In r (Strict.scheduleData st) ∧ ∃ s, get r "Name" = VStr s ∧ ci_eq s name).
Proof.
  intros Hwf. unfold Strict.matches. rewrite filter_rows_total by done.
  eexists; split; [done|]. rewrite filter_In, String.eqb_eq, toLowerCase_eq.
  split.
  - intros [Hin Hci]. split; [done|].
    rewrite Forall_forall in Hwf. destruct (Hwf r) as [s Hs].
    { by apply list_elem_of_In. }
    exists s. by rewrite Hs in Hci.
  - intros [Hin (s & Hs & Hci)]. by rewrite Hs.
Qed.

Lemma permissive_matches_iff (st : Permissive.state) (name : param)
    (r : gmap string value) :
  trim (param_or_empty name) ≠ EmptyString →
  In r (Permissive.matchingRows st name) ↔
  In r (Permissive.scheduleData st) ∧
  ci_contains (Permissive.nameText r) (trim (param_or_empty name)).
Proof.
  intros Hne. unfold Permissive.matchingRows, Permissive.nameQuery.
  rewrite toLowerCase_empty. apply is_empty_false in Hne. rewrite Hne.
  rewrite filter_In. unfold Permissive.name_matches.
  by rewrite includes_lower.
Qed.

Lemma strict_lookup_response (st : Strict.state) (name : string)
    (rows : list (gmap string value)) :
  Strict.matches st name = Ok rows →
  Strict.lookup_name st name =
    Ok (match rows with
        | [] => Strict.Response 404 (Strict.not_found_body name)
        | first :: _ =>
            Strict.Response 200
              (Strict.page (get first "Name") (length rows)
                 (join EmptyString (map Strict.row_html rows)))
        end).
Proof. intros H. unfold Strict.lookup_name. rewrite H. by destruct rows. Qed.

Lemma permissive_response (st : Permissive.state) (name : param) :
  Permissive.nameQuery name ≠ EmptyString →
  Permissive.get_schedule st name =
    match Permissive.matchingRows st name with
    | [] => Ok (Permissive.Response 404 (Permissive.not_found_body name))
    | rows => Permissive.render name (Permissive.nameQuery name) rows
    end.
Proof.
  intros H. unfold Permissive.get_schedule. apply is_empty_false in H.
  rewrite H. by destruct (Permissive.matchingRows st name).
Qed.

(** Selection by name. For a query whose trimmed text [name] is not empty:
    the upload script
    selects exactly the rows of the table whose Name equals [name] under
    case-insensitive comparison, and server.js selects exactly the rows whose
    Name text contains [name] as a case-insensitive substring. Each script
    builds its response from the rows so selected: 404 when there is none,
    the page of these rows otherwise. The table of the upload script holds
    rows with a string Name, as [loadSchedule] builds them; server.js reads
    the Name text as [String(row.Name || "")]. *)
Theorem name_matching_policy (name : param) (sst : Strict.state)
    (pst : Permissive.state) (r : gmap string value) :
  trim (param_or_empty name) ≠ EmptyString →
  Forall has_string_name (Strict.scheduleData sst) →
  (∃ rows, Strict.matches sst (trim (param_or_empty name)) = Ok rows ∧
     (In r rows ↔
      In r (Strict.scheduleData sst) ∧
      ∃ s, get r "Name" = VStr s ∧ ci_eq s (trim (param_or_empty name))) ∧
     Strict.lookup_name sst (trim (param_or_empty name)) =
       Ok (match rows with
           | [] => Strict.Response 404
                     (Strict.not_found_body (trim (param_or_empty name)))
           | first :: _ =>
               Strict.Response 200
                 (Strict.page (get first "Name") (length rows)
                    (join EmptyString (map Strict.row_html rows)))
           end)) ∧
  (In r (Permissive.matchingRows pst name) ↔
   In r (Permissive.scheduleData pst) ∧
   ci_contains (Permissive.nameText r) (trim (param_or_empty name))) ∧
  Permissive.get_schedule pst name =
    match Permissive.matchingRows pst name with
    | [] => Ok (Permissive.Response 404 (Permissive.not_found_body name))
    | rows => Permissive.render name (Permissive.nameQuery name) rows
    end.
Proof.
  intros Hne Hwf. split; [|split].
  - destruct (strict_matches_iff sst (trim (param_or_empty name)) r Hwf)
      as (rows & Hrows & Hiff).
    exists rows. split; [done|]. split; [done|].
    by apply strict_lookup_response.
  - by apply permissive_matches_iff.
  - apply permissive_response. unfold Permissive.nameQuery.
    apply is_empty_false. rewrite toLowerCase_empty. by apply is_empty_false.
Qed.

End Matching.

(** ** Loading the spreadsheet *)

Section Loading.

Lemma make_row_lookup (cells : list value) (k : string) :
  Strict.make_row cells !! k =
  if decide (k = "Name") then Some (Strict.field cells 0)
  else if decide (k = "Day") then Some (Strict.field cells 1)
  else if decide (k = "Time") then Some (Strict.field cells 2)
  else if decide (k = "Activity") then Some (Strict.field cells 3)
  else if decide (k = "Description") then Some (Strict.field cells 4)
  else None.
Proof.
  unfold Strict.make_row.
  repeat (case_decide;
          [subst k; by simplify_map_eq | rewrite lookup_insert_ne by done]).
  case_decide; [subst k; by simplify_map_eq|].
  by rewrite lookup_singleton_ne.
Qed.

Lemma make_row_fields (cells : list value) (k : string) (v : value) :
  Strict.make_row cells !! k = Some v →
  ∃ i, (i < 5)%nat ∧ v = Strict.field cells i.
Proof.
  rewrite make_row_lookup. repeat case_decide; intros [= <-].
  - exists 0%nat. split; [lia | done].
  - exists 1%nat. split; [lia | done].
  - exists 2%nat. split; [lia | done].
  - exists 3%nat. split; [lia | done].
  - exists 4%nat. split; [lia | done].
Qed.

Lemma make_row_clean (cells : list value) : clean_row (Strict.make_row cells).
Proof.
  intros k v H. apply make_row_fields in H as (i & _ & ->).
  eexists. split; [done | apply trim_trimmed].
Qed.

Lemma make_row_string_name (cells : list value) :
  has_string_name (Strict.make_row cells).
Proof.
  unfold has_string_name, get. rewrite make_row_lookup.
  rewrite decide_True by done. by eexists.
Qed.

Lemma make_row_dom (cells : list value) :
  dom (Strict.make_row cells) = five_fields.
Proof.
  unfold Strict.make_row, five_fields.
  rewrite !dom_insert_L, dom_singleton_L. set_solver.
Qed.

(** The table [loadSchedule] of the upload script leaves is empty or the
    image of the data rows under [make_row]. *)
Lemma strict_loadSchedule_table (w : Strict.world) (st : Strict.state) :
  ∃ st' cells,
    Strict.loadSchedule w st = Ok st' ∧
    Strict.scheduleData st' = map Strict.make_row cells.
Proof.
  unfold Strict.loadSchedule, Strict.stat.
  destruct (Strict.disk w !! Fs.schedule_xlsx) as [[t [|sheets]]|]; cbn.
  - by eexists _, [].
  - destruct (length (Fs.first_sheet_rows sheets) <=? 1)%nat; cbn.
    + by eexists _, [].
    + by eexists _, _.
  - by eexists _, [].
Qed.

Lemma strict_load_workbook (w : Strict.world) (st : Strict.state) (t : Z)
    (sheets : list (list (list value))) :
  Strict.disk w !! Fs.schedule_xlsx = Some (Fs.File t (Fs.Workbook sheets)) →
  ∃ st', Strict.loadSchedule w st = Ok st' ∧
    Strict.scheduleData st' =
      map Strict.make_row (drop 1 (Fs.first_sheet_rows sheets)).
Proof.
  intros H. unfold Strict.loadSchedule, Strict.stat. rewrite H. cbn.
  destruct (Fs.first_sheet_rows sheets) as [|hdr [|r rows]]; cbn;
    by eexists.
Qed.

Lemma field_missing (cells : list value) (i : nat) :
  (length cells ≤ i)%nat → Strict.field cells i = VStr EmptyString.
Proof.
  intros H. unfold Strict.field, at_. by rewrite lookup_ge_None_2.
Qed.

Lemma field_resize (cells : list value) (i : nat) :
  (i < 5)%nat →
  Strict.field (resize 5 (VStr EmptyString) cells) i = Strict.field cells i.
Proof.
  intros Hi. unfold Strict.field, at_.
  destruct (decide (i < length cells)%nat) as [Hlt|Hge].
  - by rewrite lookup_resize.
  - rewrite lookup_resize_new, lookup_ge_None_2 by lia. done.
Qed.

Lemma make_row_resize (cells : list value) :
  Strict.make_row (resize 5 (VStr EmptyString) cells) = Strict.make_row cells.
Proof. unfold Strict.make_row. by rewrite !field_resize by lia. Qed.

End Loading.

Section LoadedTable.

(** C7. [loadSchedule] never throws, in either script. With no file in the
    upload directory it leaves the empty table and reports that on the
    console log, not as an error; with a file the spreadsheet parser cannot
    read it leaves the empty table and writes a diagnostic to the console
    error stream. A readable workbook gives the rows of its first sheet
    (server.js) or the rows built from the data rows (upload script). *)
Theorem loadSchedule_never_throws
    (pdisk : gmap string (Fs.file (list (gmap string value))))
    (pst : Permissive.state) (w : Strict.world) (sst : Strict.state) :
  (∃ st', Permissive.loadSchedule pdisk pst = Ok st' ∧
     match pdisk !! Fs.schedule_xlsx with
     | None =>
         Permissive.scheduleData st' = [] ∧
         Permissive.trace st' =
           Permissive.trace pst ++
           [Permissive.Call_loadSchedule;
            Permissive.Console_log Permissive.Msg_not_found]
     | Some (Fs.File _ Fs.Unreadable) =>
         Permissive.scheduleData st' = [] ∧
         ∃ e, Permissive.trace st' =
           Permissive.trace pst ++
           [Permissive.Call_loadSchedule;
            Permissive.Console_error (Permissive.Msg_read_failed e)]
     | Some (Fs.File _ (Fs.Workbook sheets)) =>
         Permissive.scheduleData st' = Fs.first_sheet_rows sheets
     end) ∧
  (∃ st', Strict.loadSchedule w sst = Ok st' ∧
     match Strict.disk w !! Fs.schedule_xlsx with
     | None =>
         Strict.scheduleData st' = [] ∧
         Strict.trace st' =
           Strict.trace sst ++
           [Strict.Call_loadSchedule; Strict.Console_log Strict.Msg_no_file]
     | Some (Fs.File _ Fs.Unreadable) =>
         Strict.scheduleData st' = [] ∧
         ∃ e, Strict.trace st' =
           Strict.trace sst ++
           [Strict.Call_loadSchedule;
            Strict.Console_error (Strict.Msg_failed e)]
     | Some (Fs.File _ (Fs.Workbook sheets)) =>
         Strict.scheduleData st' =
           map Strict.make_row (drop 1 (Fs.first_sheet_rows sheets))
     end).
Proof.
  split.
  - unfold Permissive.loadSchedule.
    destruct (pdisk !! Fs.schedule_xlsx) as [[t [|sheets]]|]; cbn.
    + eexists. split; [done|]. split; [done|].
      eexists. simpl. by rewrite <- app_assoc.
    + by eexists.
    + eexists. split; [done|]. split; [done|]. simpl. by rewrite <- app_assoc.
  - destruct (Strict.disk w !! Fs.schedule_xlsx) as [[t [|sheets]]|] eqn:E.
    + unfold Strict.loadSchedule, Strict.stat. rewrite E. cbn.
      eexists. split; [done|]. split; [done|].
      eexists. simpl. by rewrite <- app_assoc.
    + by apply strict_load_workbook with (t := t).
    + unfold Strict.loadSchedule, Strict.stat. rewrite E. cbn.
      eexists. split; [done|]. split; [done|]. simpl. by rewrite <- app_assoc.
Qed.

(** C2, as the code has it. In the upload script every field of every row of
    the table [loadSchedule] leaves is a string with no leading and no
    trailing whitespace, and a truthy cell is stored as the trimmed text of
    [String(cell)]. (server.js keeps the parser's raw cell values.) *)
Theorem strict_rows_clean (w : Strict.world) (st : Strict.state) :
  ∃ st' cells,
    Strict.loadSchedule w st = Ok st' ∧
    Strict.scheduleData st' = map Strict.make_row cells ∧
    Forall clean_row (Strict.scheduleData st') ∧
    ∀ (r : list value) (i : nat),
      truthy (at_ r i) = true →
      Strict.field r i = VStr (trim (String_ (at_ r i))).
Proof.
  destruct (strict_loadSchedule_table w st) as (st' & cells & H & Ht).
  exists st', cells. split; [done|]. split; [done|]. split.
  - rewrite Ht. apply Forall_forall. intros r Hr.
    apply list_elem_of_fmap in Hr as (c & -> & _). apply make_row_clean.
  - intros r i Hi. unfold Strict.field, or_else. by rewrite Hi.
Qed.

(** C2, as stated, fails for server.js: a sheet whose Name cell holds the
    text Alice between two spaces and whose Time cell holds the number 9 is
    kept as it is. *)
Lemma permissive_rows_not_clean :
  ¬ (∀ (disk : gmap string (Fs.file (list (gmap string value))))
       (st st' : Permissive.state),
       Permissive.loadSchedule disk st = Ok st' →
       Forall clean_row (Permissive.scheduleData st')).
Proof.
  intros H.
  pose (r := ({[ "Name" := VStr " Alice "; "Time" := VNum "9" ]}
              : gmap string value)).
  specialize (H {[ "schedule.xlsx" := Fs.File 0 (Fs.Workbook [[r]]) ]}
                (Permissive.State [] []) _ eq_refl).
  cbn in H. apply Forall_cons in H as [H _].
  destruct (H "Name" (VStr " Alice ") eq_refl) as (s & [= <-] & Hs & _).
  by specialize (Hs " "%char "Alice " eq_refl).
Qed.

(** C3. A workbook whose first sheet has a header row followed by the rows
    [data], placed in the upload directory as schedule.xlsx, is loaded into
    a table of exactly [length data] entries; uploading it through
    [POST /admin/upload] stores it there and reports that many entries. *)
Theorem header_plus_n_rows (w : Strict.world) (st : Strict.state)
    (file : Strict.upload) (hdr : list value) (data : list (list value))
    (more : list (list (list value))) :
  accepted file →
  Strict.payload file = Fs.Workbook ((hdr :: data) :: more) →
  ∃ st',
    Strict.loadSchedule (stored w file) st = Ok st' ∧
    length (Strict.scheduleData st') = length data ∧
    Strict.post_admin_upload w st (Some file) =
      (stored w file, st',
       Ok (Strict.Upload_response 200
             (Strict.Json_uploaded "Schedule uploaded and updated successfully!"
                (length data) (Strict.now w)))).
Proof.
  intros (Hf & Hm & Hs) Hp.
  destruct (strict_load_workbook (stored w file) st (Strict.now w)
              ((hdr :: data) :: more)) as (st' & Hl & Ht).
  { unfold stored. cbn. rewrite Hp. apply lookup_insert_eq. }
  exists st'. split; [done|]. cbn in Ht.
  assert (Hlen : length (Strict.scheduleData st') = length data).
  { by rewrite Ht, drop_0, length_map. }
  split; [done|].
  unfold Strict.post_admin_upload, Strict.upload_single, Strict.fileFilter.
  rewrite Hf, String.eqb_refl. cbn [negb].
  assert (existsb (String.eqb (Strict.mimetype file)) Strict.allowed = true)
    as ->.
  { destruct Hm as [-> | ->]; reflexivity. }
  assert ((Strict.size file <=? Strict.fileSize)%N = true) as ->.
  { apply N.leb_le. unfold Strict.fileSize. lia. }
  unfold Strict.filename. fold (stored w file). cbv beta iota.
  by rewrite Hl, Hlen.
Qed.

(** C10. Every row of the table [loadSchedule] of the upload script leaves
    has exactly the fields Name, Day, Time, Activity and Description, hence no
    Location; each row is built by [make_row] from one row of cells, which
    ignores the cells after the fifth and reads a missing cell among the
    first five as the empty string. *)
Theorem upload_rows_five_fields (w : Strict.world) (st : Strict.state) :
  ∃ st' cells,
    Strict.loadSchedule w st = Ok st' ∧
    Strict.scheduleData st' = map Strict.make_row cells ∧
    Forall (λ r : gmap string value,
              dom r = five_fields ∧ r !! "Location" = None)
           (Strict.scheduleData st') ∧
    ∀ r : list value,
      Strict.make_row (take 5 r) = Strict.make_row r ∧
      Strict.make_row (resize 5 (VStr EmptyString) r) = Strict.make_row r ∧
      ∀ i, (length r ≤ i)%nat → Strict.field r i = VStr EmptyString.
Proof.
  destruct (strict_loadSchedule_table w st) as (st' & cells & H & Ht).
  exists st', cells. split; [done|]. split; [done|]. split.
  - rewrite Ht. apply Forall_forall. intros r Hr.
    apply list_elem_of_fmap in Hr as (c & -> & _). split.
    + apply make_row_dom.
    + by rewrite make_row_lookup.
  - intros r. split; [|split].
    + rewrite <- (make_row_resize (take 5 r)), <- (make_row_resize r).
      by rewrite resize_take_eq.
    + apply make_row_resize.
    + apply field_missing.
Qed.

End LoadedTable.

(** ** Sorting and dictionaries *)

Section SortBy.
Context {A : Type} (f : A → Z).

Lemma sort_insert_perm (x : A) (l : list A) :
  Permutation (x :: l) (sort_insert (by_key f) x l).
Proof.
  induction l as [|y l IH]; simpl; [done|].
  destruct ((by_key f) x y <=? 0); [done|].
  rewrite perm_swap. by constructor.
Qed.

Lemma sort_perm (l : list A) : Permutation l (sort (by_key f) l).
Proof.
  induction l as [|x l IH]; simpl; [done|].
  rewrite <- sort_insert_perm. by constructor.
Qed.

Lemma sort_In (x : A) (l : list A) : In x (sort (by_key f) l) ↔ In x l.
Proof.
  split; apply Permutation_in; [symmetry|]; apply sort_perm.
Qed.

Lemma sort_insert_sorted (x : A) (l : list A) :
  StronglySorted (key_le f) l → StronglySorted (key_le f) (sort_insert (by_key f) x l).
Proof.
  induction 1 as [|y l Hl IH Hy]; simpl.
  - repeat constructor.
  - destruct ((by_key f) x y <=? 0) eqn:E.
    + apply Z.leb_le in E. unfold by_key in E.
      constructor; [by constructor|]. constructor; [unfold key_le; lia|].
      eapply Forall_impl; [exact Hy|]. unfold key_le. intros; simpl in *; lia.
    + apply Z.leb_gt in E. unfold by_key in E.
      constructor; [done|].
      eapply Permutation_Forall; [apply sort_insert_perm|].
      constructor; [unfold key_le; lia | done].
Qed.

Lemma sort_sorted (l : list A) : StronglySorted (key_le f) (sort (by_key f) l).
Proof.
  induction l as [|x l IH]; simpl; [constructor|].
  by apply sort_insert_sorted.
Qed.

(** In a sorted list an element with a smaller key stands before one with
    a larger key. *)
Lemma sorted_before (a b : A) (l : list A) :
  StronglySorted (key_le f) l → In a l → In b l → f a < f b → before a b l.
Proof.
  intros Hs Ha Hb Hlt.
  apply in_split in Ha as (l1 & l2 & ->).
  apply in_app_or in Hb as [Hb | [-> | Hb]].
  - exfalso.
    assert ((key_le f) b a) as Hle.
    { eapply StronglySorted_app_1_elem_of; [exact Hs| |].
      - by apply list_elem_of_In.
      - left. }
    unfold key_le in Hle. lia.
  - lia.
  - apply in_split in Hb as (l3 & l4 & ->). by exists l1, l3, l4.
Qed.
End SortBy.

Section Dictionaries.
Context {V : Type}.
Implicit Types (d : dict V) (k : string).

Lemma own_app d k k' (v : V) :
  own (d ++ [(k', v)]) k =
  match own d k with
  | Some x => Some x
  | None => if String.eqb k' k then Some v else None
  end.
Proof.
  induction d as [|[k0 v0] d IH]; simpl; [done|].
  by destruct (String.eqb k0 k).
Qed.

Lemma own_update d k k' (g : V → V) :
  own (update d k' g) k =
  if String.eqb k' k then g <$> own d k else own d k.
Proof.
  induction d as [|[k0 v0] d IH]; simpl.
  - by destruct (String.eqb k' k).
  - destruct (String.eqb k0 k') eqn:E0; simpl.
    + apply String.eqb_eq in E0 as ->.
      by destruct (String.eqb k' k).
    + destruct (String.eqb k0 k) eqn:E1; [|done].
      apply String.eqb_eq in E1 as ->. by rewrite String.eqb_sym, E0.
Qed.

Lemma keys_update d k (g : V → V) : map fst (update d k g) = map fst d.
Proof.
  induction d as [|[k0 v0] d IH]; simpl; [done|].
  destruct (String.eqb k0 k); simpl; by rewrite ?IH.
Qed.

Lemma own_Some_key d k (v : V) : own d k = Some v → In k (map fst d).
Proof.
  induction d as [|[k0 v0] d IH]; simpl; [done|].
  destruct (String.eqb k0 k) eqn:E; [|by right; apply IH].
  apply String.eqb_eq in E. by left.
Qed.

Lemma own_None_key d k : own d k = None → ¬ In k (map fst d).
Proof.
  induction d as [|[k0 v0] d IH]; simpl; [by intros _ []|].
  destruct (String.eqb k0 k) eqn:E; [done|].
  apply String.eqb_neq in E. intros H [Hk | Hk]; [done | by apply IH].
Qed.

Lemma partition_perm (P : string → bool) (l : list string) :
  Permutation (filter (λ k, P k = true) l ++ filter (λ k, P k = false) l) l.
Proof.
  induction l as [|x l IH]; [done|].
  rewrite !filter_cons. destruct (P x) eqn:E.
  - rewrite decide_True, decide_False by done. simpl. by constructor.
  - rewrite decide_False, decide_True by done.
    rewrite <- Permutation_middle. by constructor.
Qed.

Lemma Object_keys_perm d : Permutation (Object_keys d) (map fst d).
Proof.
  unfold Object_keys. rewrite <- (partition_perm is_array_index (map fst d)) at 3.
  apply Permutation_app_tail. symmetry. apply (sort_perm index_value).
Qed.

Lemma Object_keys_In d k : In k (Object_keys d) ↔ In k (map fst d).
Proof.
  unfold Object_keys. rewrite in_app_iff.
  rewrite (sort_In index_value).
  rewrite <- !list_elem_of_In, !list_elem_of_filter. split.
  - intros [[_ H] | [_ H]]; done.
  - intros H. destruct (is_array_index k) eqn:E; [left | right]; done.
Qed.
End Dictionaries.

Lemma indexOf_In (l : list string) (x : string) : 0 ≤ indexOf l x → In x l.
Proof.
  induction l as [|y l IH]; simpl; [lia|].
  destruct (String.eqb y x) eqn:E.
  - apply String.eqb_eq in E. by left.
  - destruct (indexOf l x <? 0) eqn:E'; [lia|].
    apply Z.ltb_ge in E'. intros _. right. by apply IH.
Qed.

Lemma concat_str_app (l1 l2 : list string) :
  concat_str (l1 ++ l2) = concat_str l1 +:+ concat_str l2.
Proof.
  induction l1 as [|x l1 IH]; simpl; [done|]. by rewrite IH, str_app_assoc.
Qed.

(** ** Grouping by day in server.js *)

Section Grouping.
Implicit Types (days : dict (list (gmap string value))).
Implicit Types (r : gmap string value) (rows : list (gmap string value)).

Lemma group_step_ok days r :
  inherited (Permissive.dayKey r) = false →
  ∃ days',
    Permissive.group_step days r = Ok days' ∧
    (∀ k, default [] (own days' k) =
          default [] (own days k)
          ++ (if String.eqb (Permissive.dayKey r) k then [r] else [])) ∧
    (∀ k, In k (map fst days') ↔
          In k (map fst days) ∨ k = Permissive.dayKey r) ∧
    (NoDup (map fst days) → NoDup (map fst days')).
Proof.
  intros Hproto. unfold Permissive.group_step, Permissive.days_get.
  rewrite Hproto. destruct (own days (Permissive.dayKey r)) as [rs|] eqn:E.
  - rewrite E. eexists. split; [done|]. split; [|split].
    + intros k. rewrite own_update.
      destruct (String.eqb (Permissive.dayKey r) k) eqn:Ek.
      * apply String.eqb_eq in Ek as <-. by rewrite E.
      * simpl. by rewrite app_nil_r.
    + intros k. rewrite keys_update. split; [by left|].
      intros [H | ->]; [done | by eapply own_Some_key].
    + by rewrite keys_update.
  - rewrite own_app, E, String.eqb_refl.
    eexists. split; [done|]. split; [|split].
    + intros k. rewrite own_update, own_app.
      destruct (String.eqb (Permissive.dayKey r) k) eqn:Ek.
      * apply String.eqb_eq in Ek as <-. by rewrite E.
      * destruct (own days k); simpl; by rewrite ?app_nil_r.
    + intros k. rewrite keys_update, map_app, in_app_iff. simpl.
      split; intros [H | H]; auto.
      destruct H as [<- | []]. by right.
    + intros Hnd. rewrite keys_update, map_app. simpl.
      apply NoDup_app. split; [done|]. split; [|apply NoDup_singleton].
      intros k Hk ->%list_elem_of_singleton.
      apply (own_None_key _ _ E). by apply list_elem_of_In.
Qed.

Lemma group_rows_ok days rows :
  (∀ r, In r rows → inherited (Permissive.dayKey r) = false) →
  ∃ days',
    Permissive.group_rows days rows = Ok days' ∧
    (∀ k, default [] (own days' k) =
          default [] (own days k) ++ rows_of_day k rows) ∧
    (∀ k, In k (map fst days') ↔
          In k (map fst days) ∨ ∃ r, In r rows ∧ Permissive.dayKey r = k) ∧
    (NoDup (map fst days) → NoDup (map fst days')).
Proof.
  revert days. induction rows as [|r rows IH]; intros days Hproto.
  - exists days. split; [done|]. split; [|split].
    + intros k. by rewrite app_nil_r.
    + intros k. split; [by left|]. by intros [H | (r & [] & _)].
    + done.
  - destruct (group_step_ok days r) as (d1 & H1 & Hm1 & Hk1 & Hn1).
    { apply Hproto. by left. }
    destruct (IH d1) as (d2 & H2 & Hm2 & Hk2 & Hn2).
    { intros r' Hr'. apply Hproto. by right. }
    exists d2. split; [|split; [|split; [|by intros ?; apply Hn2, Hn1]]].
    + cbn [Permissive.group_rows]. rewrite H1. exact H2.
    + intros k. rewrite Hm2, Hm1, <- app_assoc. f_equal.
      unfold rows_of_day. cbn [List.filter].
      by destruct (String.eqb (Permissive.dayKey r) k).
    + intros k. rewrite Hk2, Hk1. split.
      * intros [[H | ->] | (r' & Hr' & <-)].
        -- by left.
        -- right. exists r. split; [by left | done].
        -- right. exists r'. split; [by right | done].
      * intros [H | (r' & [-> | Hr'] & <-)].
        -- left. by left.
        -- left. by right.
        -- right. by exists r'.
Qed.

Lemma add_rows_html (l : list (gmap string value)) (html : string) :
  fold_left (λ html r, html +:+ Permissive.row_html r) l html =
  html +:+ concat_str (map Permissive.row_html l).
Proof.
  revert html. induction l as [|r l IH]; intros html; simpl.
  - by rewrite str_app_nil_r.
  - by rewrite IH, str_app_assoc.
Qed.

Lemma add_day_html days (html day : string) :
  Permissive.add_day days html day = html +:+ day_section days day.
Proof.
  unfold Permissive.add_day, day_section.
  by rewrite add_rows_html, !str_app_assoc.
Qed.

Lemma add_days_html days (l : list string) (html : string) :
  fold_left (Permissive.add_day days) l html =
  html +:+ concat_str (map (day_section days) l).
Proof.
  revert html. induction l as [|day l IH]; intros html; simpl.
  - by rewrite str_app_nil_r.
  - by rewrite IH, add_day_html, str_app_assoc.
Qed.

Lemma sortedDays_sorted days :
  StronglySorted (key_le (indexOf Permissive.dayOrder))
                 (Permissive.sortedDays days).
Proof. apply (sort_sorted (indexOf Permissive.dayOrder)). Qed.

Lemma sortedDays_In days (k : string) :
  In k (Permissive.sortedDays days) ↔ In k (map fst days).
Proof.
  unfold Permissive.sortedDays.
  rewrite (sort_In (indexOf Permissive.dayOrder)). apply Object_keys_In.
Qed.

Lemma sortedDays_perm days :
  Permutation (Permissive.sortedDays days) (map fst days).
Proof.
  unfold Permissive.sortedDays.
  rewrite <- (sort_perm (indexOf Permissive.dayOrder)). apply Object_keys_perm.
Qed.

Lemma dayKey_of_weekday r (d : string) :
  0 ≤ indexOf Permissive.dayOrder d →
  get r "Day" = VStr d → Permissive.dayKey r = d.
Proof.
  intros Hd Hr. unfold Permissive.dayKey. rewrite Hr.
  apply indexOf_In in Hd. simpl in Hd.
  destruct Hd as [<-|[<-|[<-|[<-|[<-|[<-|[<-|[]]]]]]]]; done.
Qed.
End Grouping.

Section GroupOrder.

Lemma render_page (name : param) (q : string)
    (rows : list (gmap string value)) :
  (∀ r, In r rows → inherited (Permissive.dayKey r) = false) →
  ∃ days,
    Permissive.group_rows [] rows = Ok days ∧
    (∀ k, default [] (own days k) = rows_of_day k rows) ∧
    (∀ k, In k (Permissive.sortedDays days) ↔
          ∃ r, In r rows ∧ Permissive.dayKey r = k) ∧
    NoDup (Permissive.sortedDays days) ∧
    Permissive.render name q rows =
      Ok (Permissive.Response 200
            (Permissive.page_open
             +:+ Permissive.page_title name q (length rows)
             +:+ concat_str (map (day_section days) (Permissive.sortedDays days))
             +:+ Permissive.page_close)).
Proof.
  intros Hproto.
  destruct (group_rows_ok [] rows Hproto) as (days & Hg & Hm & Hk & Hn).
  exists days. split; [done|]. split; [|split; [|split]].
  - intros k. by rewrite Hm.
  - intros k. rewrite sortedDays_In, Hk. simpl.
    split; [by intros [[] | H] | by right].
  - rewrite sortedDays_perm. apply Hn. constructor.
  - unfold Permissive.render. rewrite Hg. cbn [bind].
    by rewrite add_days_html, !str_app_assoc.
Qed.

(** Order of the groups on a rendered page. Whenever the rows server.js
    selects hold a row for the day [d1] and a row for the day [d2], [d1] standing before [d2] in the fixed order Monday
    to Sunday, the page it answers with is made of one group per day, no day
    twice, in an order that follows Monday to Sunday, with the group of [d1],
    holding all its rows in source order, before the group of [d2], however
    the rows are interleaved in the table. The rows must be renderable: no
    selected row has a day that names a member of [Object.prototype]. *)
Theorem day_groups_in_order (st : Permissive.state) (name : param)
    (d1 d2 : string) :
  (∀ r, In r (Permissive.matchingRows st name) →
        inherited (Permissive.dayKey r) = false) →
  0 ≤ indexOf Permissive.dayOrder d1 < indexOf Permissive.dayOrder d2 →
  (∃ r, In r (Permissive.matchingRows st name) ∧ get r "Day" = VStr d1) →
  (∃ r, In r (Permissive.matchingRows st name) ∧ get r "Day" = VStr d2) →
  ∃ l1 l2 l3,
    NoDup (l1 ++ d1 :: l2 ++ d2 :: l3) ∧
    StronglySorted (key_le (indexOf Permissive.dayOrder))
                   (l1 ++ d1 :: l2 ++ d2 :: l3) ∧
    Permissive.get_schedule st name =
    Ok (Permissive.Response 200
          (Permissive.page_open
           +:+ Permissive.page_title name (Permissive.nameQuery name)
                 (length (Permissive.matchingRows st name))
           +:+ concat_str
                 (map (λ d, day_table d (Permissive.matchingRows st name))
                      (l1 ++ d1 :: l2 ++ d2 :: l3))
           +:+ Permissive.page_close)).
Proof.
  intros Hproto [Hd1 Hd2] (r1 & Hr1 & Hday1) (r2 & Hr2 & Hday2).
  unfold Permissive.get_schedule.
  set (rows := Permissive.matchingRows st name) in *.
  assert ((length rows =? 0)%nat = false) as ->.
  { apply Nat.eqb_neq. destruct rows; [done | simpl; lia]. }
  rewrite andb_false_r.
  destruct (render_page name (Permissive.nameQuery name) rows Hproto)
    as (days & _ & Hm & Hk & Hnd & ->).
  assert (before d1 d2 (Permissive.sortedDays days)) as (l1 & l2 & l3 & Hl).
  { apply (sorted_before (indexOf Permissive.dayOrder)).
    - apply sortedDays_sorted.
    - apply Hk. exists r1. split; [done|]. by apply dayKey_of_weekday.
    - apply Hk. exists r2. split; [done|]. apply dayKey_of_weekday; [lia|done].
    - done. }
  exists l1, l2, l3. rewrite <- Hl. split; [done|].
  split; [apply sortedDays_sorted|].
  assert (map (day_section days) (Permissive.sortedDays days) =
          map (λ d, day_table d rows) (Permissive.sortedDays days)) as ->; [|done].
  apply map_ext. intros k. unfold day_section, day_table. by rewrite Hm.
Qed.

Lemma day_groups_in_order_witness :
  ∃ l1 l2 l3,
    NoDup (l1 ++ "Monday" :: l2 ++ "Tuesday" :: l3) ∧
    StronglySorted (key_le (indexOf Permissive.dayOrder))
                   (l1 ++ "Monday" :: l2 ++ "Tuesday" :: l3) ∧
    Permissive.get_schedule Sample.interleaved_week None =
    Ok (Permissive.Response 200
          (Permissive.page_open
           +:+ Permissive.page_title None (Permissive.nameQuery None)
                 (length (Permissive.matchingRows Sample.interleaved_week None))
           +:+ concat_str
                 (map (λ d, day_table d
                              (Permissive.matchingRows Sample.interleaved_week None))
                      (l1 ++ "Monday" :: l2 ++ "Tuesday" :: l3))
           +:+ Permissive.page_close)).
Proof.
  apply (day_groups_in_order Sample.interleaved_week None "Monday" "Tuesday").
  - intros r [<- | [<- | [<- | [<- | []]]]]; reflexivity.
  - vm_compute. split; [discriminate | reflexivity].
  - eexists. split; [right; left; reflexivity | reflexivity].
  - eexists. split; [left; reflexivity | reflexivity].
Defined.

End GroupOrder.

(** ** The upload route *)

Section UploadRoute.

Lemma upload_single_accepted (w : Strict.world) (file : Strict.upload) :
  accepted file →
  Strict.upload_single w (Some file) = (stored w file, Strict.Next (Some file)).
Proof.
  intros (Hf & Hm & Hs). unfold Strict.upload_single, Strict.fileFilter.
  rewrite Hf, String.eqb_refl. cbn [negb].
  assert (existsb (String.eqb (Strict.mimetype file)) Strict.allowed = true)
    as ->.
  { destruct Hm as [-> | ->]; reflexivity. }
  assert ((Strict.size file <=? Strict.fileSize)%N = true) as ->.
  { apply N.leb_le. unfold Strict.fileSize. lia. }
  done.
Qed.

Lemma allowed_spec (m : string) :
  existsb (String.eqb m) Strict.allowed = true ↔
  m = "application/vnd.openxmlformats-officedocument.spreadsheetml.sheet" ∨
  m = "application/vnd.ms-excel".
Proof.
  unfold Strict.allowed. cbn [existsb].
  rewrite orb_false_r, orb_true_iff, !String.eqb_eq. tauto.
Qed.

Lemma upload_single_refused (w : Strict.world) (file : Strict.upload) :
  ¬ accepted file →
  ∃ w' reason,
    Strict.upload_single w (Some file) = (w', Strict.Next_error (Error reason)) ∧
    In reason refusal_reasons ∧
    ∀ k, k ≠ "schedule.xlsx" → Strict.disk w' !! k = Strict.disk w !! k.
Proof.
  intros Hno. unfold Strict.upload_single, Strict.fileFilter.
  destruct (String.eqb (Strict.fieldname file) "file") eqn:Ef; cbn [negb].
  - destruct (existsb (String.eqb (Strict.mimetype file)) Strict.allowed)
      eqn:Em.
    + destruct (Strict.size file <=? Strict.fileSize)%N eqn:Es.
      * exfalso. apply Hno. split; [by apply String.eqb_eq|].
        split; [by apply allowed_spec|].
        apply N.leb_le in Es. unfold Strict.fileSize in Es. lia.
      * eexists _, _. split; [done|]. split; [simpl; tauto|].
        intros k Hk. cbn. by rewrite lookup_delete_ne.
    + eexists _, _. split; [done|]. split; [simpl; tauto | done].
  - eexists _, _. split; [done|]. split; [simpl; tauto | done].
Qed.

Lemma strict_load_stored (w : Strict.world) (st : Strict.state)
    (file : Strict.upload) :
  ∃ st',
    Strict.loadSchedule (stored w file) st = Ok st' ∧
    Strict.scheduleData st' =
      match Strict.payload file with
      | Fs.Workbook sheets =>
          map Strict.make_row (drop 1 (Fs.first_sheet_rows sheets))
      | Fs.Unreadable => []
      end.
Proof.
  unfold Strict.loadSchedule, Strict.stat, stored. cbn [Strict.disk].
  rewrite lookup_insert_eq. cbn.
  destruct (Strict.payload file) as [|sheets]; cbn; [by eexists|].
  destruct (Fs.first_sheet_rows sheets) as [|hdr [|r rows]]; cbn; by eexists.
Qed.

(** C9. [POST /admin/upload] takes a file exactly when it is [accepted]:
    sent as the field [file], declared as one of the two Excel content types
    and at most 10 MiB long. A file it takes is written to schedule.xlsx in
    the upload directory, whatever name it was uploaded under, and no other
    entry of the directory changes. Before it answers, the table is replaced
    by what the uploaded file holds: one row for each row of the first sheet
    after the header row, no row when the file cannot be read; the response
    has status 200 and counts the rows of that table. Every other request,
    with or without a file, gets status 400 and one of four reasons, and
    leaves the table alone. *)
Theorem upload_route (w : Strict.world) (st : Strict.state)
    (part : option Strict.upload) :
  match part with
  | Some file =>
      (accepted file →
       ∃ w' st',
         Strict.post_admin_upload w st part =
           (w', st',
            Ok (Strict.Upload_response 200
                  (Strict.Json_uploaded
                     "Schedule uploaded and updated successfully!"
                     (length (Strict.scheduleData st')) (Strict.now w)))) ∧
         Strict.disk w' !! "schedule.xlsx" =
           Some (Fs.File (Strict.now w) (Strict.payload file)) ∧
         (∀ k, k ≠ "schedule.xlsx" →
               Strict.disk w' !! k = Strict.disk w !! k) ∧
         Strict.loadSchedule w' st = Ok st' ∧
         Strict.scheduleData st' =
           match Strict.payload file with
           | Fs.Workbook sheets =>
               map Strict.make_row (drop 1 (Fs.first_sheet_rows sheets))
           | Fs.Unreadable => []
           end) ∧
      (¬ accepted file →
       ∃ w' reason,
         Strict.post_admin_upload w st part =
           (w', st, Ok (Strict.Upload_response 400 (Strict.Json_error reason))) ∧
         In reason refusal_reasons ∧
         (∀ k, k ≠ "schedule.xlsx" →
               Strict.disk w' !! k = Strict.disk w !! k))
  | None =>
      Strict.post_admin_upload w st part =
        (w, st,
         Ok (Strict.Upload_response 400 (Strict.Json_error "No file uploaded.")))
  end.
Proof.
  destruct part as [file|]; [split|done].
  - intros Hacc. unfold Strict.post_admin_upload.
    rewrite upload_single_accepted by done.
    destruct (strict_load_stored w st file) as (st' & Hl & Ht).
    exists (stored w file), st'. rewrite Hl. split; [done|].
    split; [apply lookup_insert_eq|]. split; [|done].
    intros k Hk. cbn. by rewrite lookup_insert_ne.
  - intros Hno. unfold Strict.post_admin_upload.
    destruct (upload_single_refused w file Hno) as (w' & reason & -> & Hr & Hk).
    by exists w', reason.
Qed.

End UploadRoute.

(** ** Escaping *)

Section Escaping.

Lemma replaceAll_app (s t : string) (c : ascii) (r : string) :
  replaceAll (s +:+ t) c r = replaceAll s c r +:+ replaceAll t c r.
Proof.
  induction s as [|a s IH]; [done|].
  rewrite str_app_cons. simpl. by rewrite IH, str_app_assoc.
Qed.

Lemma escapeHtml_app (s t : string) :
  Permissive.escapeHtml (s +:+ t) =
  Permissive.escapeHtml s +:+ Permissive.escapeHtml t.
Proof. unfold Permissive.escapeHtml. by rewrite !replaceAll_app. Qed.

Lemma escapeHtml_char (c : ascii) :
  Permissive.escapeHtml (String c EmptyString) =
  escaped "&#039;" (String c EmptyString).
Proof. by destruct c as [[] [] [] [] [] [] [] []]. Qed.

(** The five passes of [replaceAll] amount to one pass that writes each
    special character as its entity. *)
Lemma escapeHtml_escaped (s : string) :
  Permissive.escapeHtml s = escaped "&#039;" s.
Proof.
  induction s as [|c s IH]; [done|].
  change (String c s) with (String c EmptyString +:+ s).
  rewrite escapeHtml_app, escapeHtml_char, IH.
  cbn [escaped]. by rewrite str_app_nil_r.
Qed.

Lemma replace_special_escaped (s : string) :
  Strict.replace_special s = escaped "&#39;" s.
Proof.
  induction s as [|c s IH]; [done|]. cbn [Strict.replace_special escaped].
  rewrite IH. f_equal.
Qed.

Lemma escaped_safe (apos s : string) :
  apos = "&#039;" ∨ apos = "&#39;" → html_safe (escaped apos s).
Proof.
  intros Hapos. induction s as [|c s IH]; [done|].
  destruct c as [[] [] [] [] [] [] [] []];
    try exact IH;
    cbn [escaped]; rewrite ?str_app_cons, ?str_app_nil_l;
    try (split; [eexists; eauto 7 | exact IH]).
  destruct Hapos as [-> | ->]; rewrite ?str_app_cons, ?str_app_nil_l;
    (split; [eexists; eauto 7 | exact IH]).
Qed.

(** The upload script quotes the name as it came. *)
Lemma strict_not_found_body_raw (st : Strict.state) (name : string) :
  Strict.matches st name = Ok [] →
  Strict.lookup_name st name =
    Ok (Strict.Response 404
          (tpl "No schedule found for '" +:+ name +:+ tpl "'.")).
Proof. intros H. unfold Strict.lookup_name. by rewrite H. Qed.

(** When server.js finds no row for a query, it answers 404 and the body
    quotes the text of the query with every special character written as its
    entity, between fixed markup. *)
Lemma permissive_not_found_escaped (st : Permissive.state) (name : param) :
  Permissive.nameQuery name ≠ EmptyString →
  Permissive.matchingRows st name = [] →
  Permissive.get_schedule st name =
    Ok (Permissive.Response 404
          (tpl "<span class='error'>No schedule found for <strong>"
           +:+ escaped "&#039;" (param_nullish_empty name)
           +:+ "</strong>.</span>")) ∧
  html_safe (escaped "&#039;" (param_nullish_empty name)).
Proof.
  intros Hq Hrows. split; [|apply escaped_safe; by left].
  unfold Permissive.get_schedule. rewrite Hrows.
  apply is_empty_false in Hq. rewrite Hq. cbn [negb length Nat.eqb andb].
  unfold Permissive.not_found_body. by rewrite escapeHtml_escaped.
Qed.

End Escaping.

(** ** Empty names and empty tables *)

Section EmptyCases.

Lemma strict_empty_name_400 (w : Strict.world) (st : Strict.state)
    (name : param) :
  trim (param_or_empty name) = EmptyString →
  Strict.get_schedule w st name =
    (st, Ok (Strict.Response 400 "Missing or empty ?name= parameter")).
Proof. intros H. unfold Strict.get_schedule. by rewrite H. Qed.

(** With an empty name server.js goes on with the whole table; when no day
    names a member of [Object.prototype] the page shows every row of the
    table in the table of its day. *)
Lemma permissive_empty_name_all_rows (st : Permissive.state) (name : param) :
  trim (param_or_empty name) = EmptyString →
  Permissive.matchingRows st name = Permissive.scheduleData st ∧
  ((∀ r, In r (Permissive.scheduleData st) →
         inherited (Permissive.dayKey r) = false) →
   ∃ days,
     Permissive.get_schedule st name =
       Ok (Permissive.Response 200
             (Permissive.page_open +:+ "<h2>Full Schedule</h2>"
              +:+ concat_str (map (day_section days) (Permissive.sortedDays days))
              +:+ Permissive.page_close)) ∧
     ∀ r, In r (Permissive.scheduleData st) →
          In (Permissive.dayKey r) (Permissive.sortedDays days) ∧
          In r (default [] (own days (Permissive.dayKey r)))).
Proof.
  intros H.
  assert (Permissive.matchingRows st name = Permissive.scheduleData st) as Hm.
  { unfold Permissive.matchingRows, Permissive.nameQuery. by rewrite H. }
  split; [done|]. intros Hproto.
  destruct (render_page name EmptyString (Permissive.scheduleData st) Hproto)
    as (days & _ & Hd & Hk & _ & Hr).
  exists days. split.
  - unfold Permissive.get_schedule, Permissive.nameQuery.
    rewrite Hm, H. cbn [toLowerCase is_empty negb andb]. by rewrite Hr.
  - intros r Hin. split.
    + apply Hk. by exists r.
    + rewrite Hd. apply filter_In. split; [done | apply String.eqb_refl].
Qed.

Ltac count_reloads :=
  unfold Strict.reloads, Strict.emit, Strict.set_scheduleData,
    Strict.set_lastLoadTime;
  cbn [Strict.trace];
  rewrite ?List.filter_app, ?length_app; simpl; lia.

Lemma reloads_emit_log (m : Strict.message) (st : Strict.state) :
  Strict.reloads (Strict.emit (Strict.Console_log m) st) = Strict.reloads st.
Proof.
  unfold Strict.reloads, Strict.emit. cbn [Strict.trace].
  rewrite List.filter_app, length_app. simpl. lia.
Qed.

(** One call of [loadSchedule] counts as one reload and leaves the table the
    upload directory holds. *)
Lemma strict_load_effect (w : Strict.world) (st : Strict.state) :
  ∃ st',
    Strict.loadSchedule w st = Ok st' ∧
    Strict.reloads st' = S (Strict.reloads st) ∧
    Strict.scheduleData st' = loaded_rows w.
Proof.
  unfold Strict.loadSchedule, Strict.stat, loaded_rows.
  destruct (Strict.disk w !! Fs.schedule_xlsx) as [[t [|sheets]]|]; cbn.
  - eexists. split; [done|]. split; [|done]. count_reloads.
  - destruct (Fs.first_sheet_rows sheets) as [|hdr [|r rows]]; cbn;
      (eexists; split; [done|]; split; [|done]); count_reloads.
  - eexists. split; [done|]. split; [|done]. count_reloads.
Qed.

End EmptyCases.

Section Reloading.

Lemma reload_if_changed_cases (w : Strict.world) (st : Strict.state) :
  (¬ file_changed w st ∧ Strict.reload_if_changed w st = Ok st) ∨
  (file_changed w st ∧
   ∃ st', Strict.reload_if_changed w st = Ok st' ∧
          Strict.reloads st' = S (Strict.reloads st) ∧
          Strict.scheduleData st' = loaded_rows w).
Proof.
  unfold Strict.reload_if_changed, Strict.stat, file_changed.
  destruct (Strict.disk w !! Fs.schedule_xlsx) as [f|] eqn:Ef;
    cbn [bind try_catch].
  - destruct (Strict.lastLoadTime st) as [t|] eqn:Et.
    + destruct (t <? Fs.mtime f) eqn:Elt.
      * right. split.
        { exists f, t. apply Z.ltb_lt in Elt. done. }
        destruct (strict_load_effect w
                    (Strict.emit (Strict.Console_log Strict.Msg_changed) st))
          as (st' & Hl & Hr & Ht).
        rewrite Hl. exists st'. rewrite reloads_emit_log in Hr. done.
      * left. split; [|done]. intros (f' & t' & [= <-] & [= <-] & Hlt).
        apply Z.ltb_ge in Elt. lia.
    + left. split; [|done]. by intros (f' & t' & _ & [=] & _).
  - left. split; [|done]. by intros (f' & t' & [=] & _).
Qed.

(** C6, as the code has it. In the upload script, a query with a name that
    finds the table empty reloads the schedule file before it answers: once,
    or twice when the hot-reload test has fired and read an empty table. The
    handler then works on the table just read, and answers 404 for missing
    data exactly when that table is empty. The handler of server.js leaves
    the state as it found it: it never reloads. *)
Theorem reload_when_table_empty (w : Strict.world) (st : Strict.state)
    (name : param) (pst : Permissive.state) :
  trim (param_or_empty name) ≠ EmptyString →
  Strict.scheduleData st = [] →
  (∃ st' resp,
     Strict.get_schedule w st name = (st', resp) ∧
     (Strict.reloads st + 1 ≤ Strict.reloads st' ≤ Strict.reloads st + 2)%nat ∧
     (¬ file_changed w st →
      Strict.reloads st' = (Strict.reloads st + 1)%nat) ∧
     Strict.scheduleData st' = loaded_rows w ∧
     (loaded_rows w = [] →
      resp = Ok (Strict.Response 404 Strict.no_data_body)) ∧
     (loaded_rows w ≠ [] →
      resp = Strict.lookup_name st' (trim (param_or_empty name)))) ∧
  fst (Permissive.handle_get_schedule pst name) = pst.
Proof.
  intros Hname Hempty. split; [|done].
  unfold Strict.get_schedule. apply is_empty_false in Hname. rewrite Hname.
  destruct (reload_if_changed_cases w st)
    as [[Hno ->] | [Hyes (st1 & -> & Hr1 & Ht1)]].
  - rewrite Hempty. cbn [length Nat.eqb].
    destruct (strict_load_effect w st) as (st2 & -> & Hr2 & Ht2).
    rewrite Ht2. destruct (loaded_rows w) as [|r rows] eqn:El;
      cbn [length Nat.eqb]; eexists _, _; (split; [done|]);
      repeat split; intros; try done; try lia; try congruence.
  - rewrite Ht1. destruct (loaded_rows w) as [|r rows] eqn:El;
      cbn [length Nat.eqb].
    + destruct (strict_load_effect w st1) as (st2 & -> & Hr2 & Ht2).
      rewrite Ht2, El. cbn [length Nat.eqb]. eexists _, _. split; [done|].
      repeat split; intros; try done; try lia; try congruence.
    + eexists _, _. split; [done|].
      repeat split; intros; try done; try lia; try congruence.
Qed.

(** C6, as stated, fails for server.js: with an empty table a query for bob
    is answered 404 without any reload. *)
Lemma permissive_never_reloads :
  ¬ (∀ (st st' : Permissive.state) (name : param) (resp : Permissive.response),
       Permissive.scheduleData st = [] →
       Permissive.handle_get_schedule st name = (st', Ok resp) →
       Permissive.status resp = 404%nat →
       Permissive.reloads st' = S (Permissive.reloads st)).
Proof.
  intros H.
  specialize (H (Permissive.State [] []) _ (Some (QStr "bob")) _
                eq_refl eq_refl eq_refl).
  discriminate H.
Qed.

End Reloading.

(** ** The properties at concrete inputs *)

Section Instances.

Lemma name_matching_policy_witness :
  ∃ rows,
    Strict.matches Sample.loaded "aLiCe" = Ok rows ∧
    In (Strict.make_row Sample.alice_cells) rows.
Proof.
  destruct (name_matching_policy (Some (QStr " aLiCe ")) Sample.loaded
              Sample.interleaved_week (Strict.make_row Sample.alice_cells))
    as [(rows & Hrows & Hiff & _) _].
  - vm_compute. discriminate.
  - repeat constructor; eexists; reflexivity.
  - exists rows. split; [exact Hrows|].
    apply Hiff. split; [by left|]. exists "Alice". split; [reflexivity|].
    repeat (constructor; [vm_compute; auto|]). constructor.
Defined.

Lemma header_plus_n_rows_witness :
  ∃ st',
    Strict.loadSchedule (stored Sample.office Sample.rota_upload) Sample.fresh
      = Ok st' ∧
    length (Strict.scheduleData st') = 2%nat ∧
    Strict.post_admin_upload Sample.office Sample.fresh (Some Sample.rota_upload) =
      (stored Sample.office Sample.rota_upload, st',
       Ok (Strict.Upload_response 200
             (Strict.Json_uploaded "Schedule uploaded and updated successfully!"
                2 10))).
Proof.
  apply (header_plus_n_rows Sample.office Sample.fresh Sample.rota_upload
           Sample.header [Sample.alice_cells; Sample.bob_cells] []).
  - split; [reflexivity|]. split; [by right|]. vm_compute. discriminate.
  - reflexivity.
Defined.

Lemma reload_when_table_empty_witness :
  ∃ st' resp,
    Strict.get_schedule Sample.office Sample.fresh (Some (QStr "alice"))
      = (st', resp) ∧
    Strict.reloads st' = 1%nat ∧
    Strict.scheduleData st' = loaded_rows Sample.office.
Proof.
  destruct (reload_when_table_empty Sample.office Sample.fresh
              (Some (QStr "alice")) Sample.interleaved_week)
    as [(st' & resp & Hrun & _ & Honce & Htable & _) _].
  - vm_compute. discriminate.
  - reflexivity.
  - exists st', resp. split; [exact Hrun|]. split; [|exact Htable].
    apply Honce. intros (f & t & _ & Ht & _). discriminate Ht.
Defined.

(** C4 at a failing input. The upload script, asked for the name [<b>] while
    it holds a table without that name, answers 404 with the name copied
    into the body as it came: the body contains the raw text and not its
    escaped form. *)
Theorem strict_not_found_body_unescaped :
  snd (Strict.get_schedule Sample.office Sample.loaded (Some (QStr "<b>"))) =
    Ok (Strict.Response 404 (tpl "No schedule found for '<b>'.")) ∧
  contains (tpl "No schedule found for '<b>'.") "<b>" ∧
  ¬ contains (tpl "No schedule found for '<b>'.") (escaped "&#39;" "<b>").
Proof.
  split; [reflexivity|]. split.
  - apply includes_spec. reflexivity.
  - rewrite <- includes_spec. vm_compute. discriminate.
Qed.

(** C5 at a failing input. With a row whose Day cell reads constructor in
    the table, server.js answers a query without a name by throwing: the
    lookup [days[day]] finds [Object.prototype.constructor], which has no
    [push]. *)
Theorem empty_name_throws_on_prototype_day :
  Permissive.matchingRows Sample.prototype_day None =
    Permissive.scheduleData Sample.prototype_day ∧
  Permissive.get_schedule Sample.prototype_day None =
    Throw (TypeError "days[day].push is not a function").
Proof. split; reflexivity. Qed.

End Instances.

(** * Further properties of the two scripts *)

(** ** The escaping helpers *)

Section EscapingMore.

Lemma unescape_escaped (apos s : string) :
  apos = "&#039;" ∨ apos = "&#39;" → unescape (escaped apos s) = s.
Proof.
  intros H. induction s as [|c s IH]; [done|].
  destruct c as [[] [] [] [] [] [] [] []]; cbn [escaped];
    try (destruct H as [-> | ->]);
    rewrite ?str_app_cons, ?str_app_nil_l; cbn [unescape]; by rewrite IH.
Qed.

(** X1. [escapeHtml] of server.js, five [replaceAll] passes one after the
    other, never escapes again what an earlier pass wrote: its result is the
    text with each ampersand, angle bracket, double quote and apostrophe
    written once as its entity. [escape] of the upload script gives the same
    text but for the apostrophe, which it writes without the leading zero. *)
Theorem escapers_single_pass (s : string) :
  Permissive.escapeHtml s = escaped "&#039;" s ∧
  Strict.escape (VStr s) = escaped "&#39;" s.
Proof.
  split; [apply escapeHtml_escaped | apply replace_special_escaped].
Qed.

(** X2. Escaping loses nothing: reading the entities back gives the text
    that was escaped, for [escapeHtml] of server.js and for [escape] of the
    upload script, also when the text itself contains entity-like pieces. *)
Theorem escapers_round_trip (s : string) :
  unescape (Permissive.escapeHtml s) = s ∧
  unescape (Strict.escape (VStr s)) = s.
Proof.
  split.
  - rewrite escapeHtml_escaped. apply unescape_escaped. by left.
  - unfold Strict.escape. rewrite replace_special_escaped.
    apply unescape_escaped. by right.
Qed.

(** X3. Nothing the scripts interpolate into a page through their escaping
    helper can carry markup: every table cell and every day heading of
    server.js and every field the upload script escapes is free of angle
    brackets and quotes, and each ampersand in it starts one of the five
    entities, whatever values the row holds. *)
Theorem interpolated_text_is_safe (r : gmap string value) (k day : string)
    (v : value) :
  html_safe (Permissive.cell r k) ∧
  html_safe (Permissive.escapeHtml day) ∧
  html_safe (Strict.escape v).
Proof.
  split; [|split].
  - unfold Permissive.cell. rewrite escapeHtml_escaped.
    apply escaped_safe. by left.
  - rewrite escapeHtml_escaped. apply escaped_safe. by left.
  - unfold Strict.escape. rewrite replace_special_escaped.
    apply escaped_safe. by right.
Qed.

End EscapingMore.

(** ** Blank names *)

Section BlankNames.

Lemma trimEnd_nonempty (c : ascii) (s : string) :
  is_ws c = false → is_empty (trimEnd (String c s)) = false.
Proof. intros H. simpl. destruct (trimEnd s); by rewrite ?H. Qed.

Lemma trim_blank (s : string) : is_empty (trim s) = blank s.
Proof.
  unfold trim. induction s as [|c s IH]; [done|].
  cbn [trimStart blank]. destruct (is_ws c) eqn:E; [done|].
  by rewrite trimEnd_nonempty.
Qed.

Lemma strict_lookup_status (st : Strict.state) (name : string)
    (resp : Strict.response) :
  Strict.lookup_name st name = Ok resp →
  Strict.status resp = 200%nat ∨ Strict.status resp = 404%nat.
Proof.
  unfold Strict.lookup_name.
  destruct (Strict.matches st name) as [[|r rows]|e]; cbn; intros [= <-];
    auto.
Qed.

(** The response of a named query is decided by the state the handler
    leaves. *)
Lemma strict_named_query (w : Strict.world) (st : Strict.state)
    (name : param) :
  blank (param_or_empty name) = false →
  ∃ st',
    Strict.get_schedule w st name =
      (st', if (length (Strict.scheduleData st') =? 0)%nat
            then Ok (Strict.Response 404 Strict.no_data_body)
            else Strict.lookup_name st' (trim (param_or_empty name))) ∧
    ((st' = st ∧ ¬ file_changed w st ∧ Strict.scheduleData st ≠ []) ∨
     (Strict.scheduleData st' = loaded_rows w ∧
      (Strict.reloads st < Strict.reloads st')%nat ∧
      (file_changed w st ∨ Strict.scheduleData st = []) ∧
      ∃ st0, Strict.loadSchedule w st0 = Ok st')).
Proof.
  intros Hb. unfold Strict.get_schedule. rewrite trim_blank, Hb.
  destruct (reload_if_changed_cases w st)
    as [[Hno ->] | [Hyes (st1 & H1 & Hr1 & Ht1)]].
  - destruct (Strict.scheduleData st) as [|r rows] eqn:Et; cbn [length Nat.eqb].
    + destruct (strict_load_effect w st) as (st2 & Hl & Hr2 & Ht2).
      rewrite Hl. exists st2. split.
      * by destruct (length (Strict.scheduleData st2) =? 0)%nat.
      * right. split; [done|]. split; [lia|]. split; [by right | by exists st].
    + exists st. rewrite Et. cbn [length Nat.eqb]. split; [done|].
      by left.
  - rewrite H1.
    assert (∃ st0, Strict.loadSchedule w st0 = Ok st1) as Hfrom.
    { unfold Strict.reload_if_changed, Strict.stat in H1.
      destruct Hyes as (f & t & Hf & Ht & Hlt). rewrite Hf in H1.
      cbn [bind try_catch] in H1. rewrite Ht in H1.
      apply Z.ltb_lt in Hlt. rewrite Hlt in H1.
      destruct (strict_load_effect w
                  (Strict.emit (Strict.Console_log Strict.Msg_changed) st))
        as (st0 & El & _).
      rewrite El in H1. cbn in H1. injection H1 as <-. eauto. }
    destruct (length (Strict.scheduleData st1) =? 0)%nat eqn:E0.
    + destruct (strict_load_effect w st1) as (st2 & Hl & Hr2 & Ht2).
      rewrite Hl. exists st2. split.
      * by destruct (length (Strict.scheduleData st2) =? 0)%nat.
      * right. split; [done|]. split; [lia|]. split; [by left | by exists st1].
    + exists st1. rewrite E0. split; [done|].
      right. split; [done|]. split; [lia|]. split; [by left | done].
Qed.

Lemma strict_bad_request_blank_state (w : Strict.world) (st : Strict.state)
    (name : param) :
  blank (param_or_empty name) = true →
  Strict.get_schedule w st name =
    (st, Ok (Strict.Response 400 "Missing or empty ?name= parameter")).
Proof. intros Hb. unfold Strict.get_schedule. by rewrite trim_blank, Hb. Qed.

(** X4. The upload script answers 400 exactly when the name is missing or
    made of whitespace only (also when it is an array whose joined text is
    blank); it then leaves table, load time and console untouched. No other
    query is answered 400. *)
Theorem strict_bad_request_iff_blank (w : Strict.world) (st : Strict.state)
    (name : param) :
  ((∃ body, snd (Strict.get_schedule w st name) =
              Ok (Strict.Response 400 body)) ↔
   blank (param_or_empty name) = true) ∧
  (blank (param_or_empty name) = true →
   Strict.get_schedule w st name =
     (st, Ok (Strict.Response 400 "Missing or empty ?name= parameter"))).
Proof.
  assert (blank (param_or_empty name) = true →
          Strict.get_schedule w st name =
            (st, Ok (Strict.Response 400 "Missing or empty ?name= parameter")))
    as Hblank.
  { intros Hb. unfold Strict.get_schedule. by rewrite trim_blank, Hb. }
  split; [|done]. split.
  - intros [body Hbody]. destruct (blank (param_or_empty name)) eqn:Hb; [done|].
    exfalso. destruct (strict_named_query w st name Hb) as (st' & Hrun & _).
    rewrite Hrun in Hbody. cbn [snd] in Hbody.
    destruct (length (Strict.scheduleData st') =? 0)%nat; [done|].
    by destruct (strict_lookup_status _ _ _ Hbody).
  - intros Hb. rewrite (Hblank Hb). by eexists.
Qed.

Lemma permissive_query_blank (name : param) :
  is_empty (Permissive.nameQuery name) = blank (param_or_empty name).
Proof.
  unfold Permissive.nameQuery. by rewrite toLowerCase_empty, trim_blank.
Qed.

Lemma permissive_render_status (name : param) (q : string)
    (rows : list (gmap string value)) (resp : Permissive.response) :
  Permissive.render name q rows = Ok resp → Permissive.status resp = 200%nat.
Proof.
  unfold Permissive.render. destruct (Permissive.group_rows [] rows); cbn;
    by intros [= <-].
Qed.

(** X5. server.js answers 404 exactly when the name is not blank and no row
    of the table matches it, and the body is then the fixed error markup
    around the escaped text of the query as it was sent (untrimmed). It
    never answers 400: any other response it gives has status 200. *)
Theorem permissive_not_found_iff (st : Permissive.state) (name : param) :
  ((∃ body, Permissive.get_schedule st name =
              Ok (Permissive.Response 404 body)) ↔
   blank (param_or_empty name) = false ∧
   Permissive.matchingRows st name = []) ∧
  (∀ resp, Permissive.get_schedule st name = Ok resp →
     (Permissive.status resp = 404%nat ∧
      Permissive.body resp =
        tpl "<span class='error'>No schedule found for <strong>"
        +:+ escaped "&#039;" (param_nullish_empty name)
        +:+ "</strong>.</span>") ∨
     Permissive.status resp = 200%nat).
Proof.
  unfold Permissive.get_schedule. rewrite permissive_query_blank.
  destruct (blank (param_or_empty name)) eqn:Hb; cbn [negb andb].
  - split.
    + split; [|by intros [? _]].
      intros [body H]. by apply permissive_render_status in H.
    + intros resp H. right. by apply permissive_render_status in H.
  - destruct (Permissive.matchingRows st name) as [|r rows] eqn:Hm;
      cbn [length Nat.eqb].
    + split; [split; [done | by eexists]|].
      intros resp [= <-]. left. split; [done|]. cbn.
      unfold Permissive.not_found_body. by rewrite escapeHtml_escaped.
    + split.
      * split; [|by intros [_ ?]].
        intros [body H]. by apply permissive_render_status in H.
      * intros resp H. right. by apply permissive_render_status in H.
Qed.

(** X6. With an empty table server.js does not fail: a query with a name is
    answered 404 with the escaped name, and a query without a name is
    answered 200 with a page that has the title Full Schedule, no group at
    all and the document viewer. *)
Theorem permissive_empty_table (st : Permissive.state) (name : param) :
  Permissive.scheduleData st = [] →
  Permissive.get_schedule st name =
    Ok (if blank (param_or_empty name)
        then Permissive.Response 200
               (Permissive.page_open +:+ "<h2>Full Schedule</h2>"
                +:+ Permissive.page_close)
        else Permissive.Response 404 (Permissive.not_found_body name)).
Proof.
  intros Hempty. unfold Permissive.get_schedule, Permissive.matchingRows.
  rewrite permissive_query_blank, Hempty.
  destruct (blank (param_or_empty name)) eqn:Hb; cbn; [|done].
  unfold Permissive.render, Permissive.page_title. cbn.
  by rewrite permissive_query_blank, Hb.
Qed.

Lemma permissive_empty_table_witness :
  ∃ st,
    Permissive.startup ∅ = Ok st ∧
    Permissive.get_schedule st (Some (QStr "bob")) =
      Ok (Permissive.Response 404 (Permissive.not_found_body (Some (QStr "bob")))).
Proof.
  eexists. split; [reflexivity|].
  apply (permissive_empty_table _ (Some (QStr "bob"))). reflexivity.
Defined.

End BlankNames.

(** ** Groups of the server.js page *)

Section GroupsMore.

Lemma concat_no_rows {A : Type} (l : list string) :
  concat (map (λ _ : string, @nil A) l) = [].
Proof. induction l as [|k l IH]; [done|]. by simpl. Qed.

Lemma file_one_row {A : Type} (key : string) (x : A)
    (g : string → list A) (l : list string) :
  NoDup l → In key l →
  Permutation
    (concat (map (λ k, (if String.eqb key k then [x] else []) ++ g k) l))
    (x :: concat (map g l)).
Proof.
  induction 1 as [|k l Hk Hnd IH]; intros Hin; [done|].
  cbn [map concat]. destruct (String.eqb key k) eqn:E.
  - apply String.eqb_eq in E as <-. cbn [app]. constructor.
    apply Permutation_app_head.
    assert (map (λ k, (if String.eqb key k then [x] else []) ++ g k) l
            = map g l) as ->; [|done].
    apply map_ext_in. intros k Hkl.
    destruct (String.eqb key k) eqn:E; [|done].
    apply String.eqb_eq in E as <-. exfalso. apply Hk.
    by apply list_elem_of_In.
  - cbn [app]. destruct Hin as [-> | Hin].
    { by rewrite String.eqb_refl in E. }
    rewrite (IH Hin). symmetry. apply Permutation_middle.
Qed.

(** Filing rows under their keys, for keys listed once each, keeps every
    row exactly once. *)
Lemma filed_rows_perm (rows : list (gmap string value)) (l : list string) :
  NoDup l →
  (∀ r, In r rows → In (Permissive.dayKey r) l) →
  Permutation (concat (map (λ d, rows_of_day d rows) l)) rows.
Proof.
  intros Hnd. induction rows as [|r rows IH]; intros Hkeys.
  - unfold rows_of_day. cbn [List.filter]. by rewrite concat_no_rows.
  - assert (map (λ d, rows_of_day d (r :: rows)) l =
            map (λ d, (if String.eqb (Permissive.dayKey r) d then [r] else [])
                      ++ rows_of_day d rows) l) as ->.
    { apply map_ext. intros d. unfold rows_of_day. cbn [List.filter].
      by destruct (String.eqb (Permissive.dayKey r) d). }
    rewrite file_one_row; [|done|apply Hkeys; by left].
    constructor. apply IH. intros r' Hr'. apply Hkeys. by right.
Qed.

(** X7. Grouping by day loses and repeats nothing: when no row has a day
    naming a member of [Object.prototype], the page of server.js is made of
    one table per day, no day twice; the table of a day holds the rows of
    that day in source order, and all tables together hold every selected
    row exactly once. *)
Theorem groups_hold_every_row_once (name : param) (q : string)
    (rows : list (gmap string value)) :
  (∀ r, In r rows → inherited (Permissive.dayKey r) = false) →
  ∃ days,
    Permissive.group_rows [] rows = Ok days ∧
    NoDup (Permissive.sortedDays days) ∧
    (∀ d, default [] (own days d) = rows_of_day d rows) ∧
    Permutation
      (concat (map (λ d, default [] (own days d)) (Permissive.sortedDays days)))
      rows ∧
    Permissive.render name q rows =
      Ok (Permissive.Response 200
            (Permissive.page_open
             +:+ Permissive.page_title name q (length rows)
             +:+ concat_str (map (day_section days) (Permissive.sortedDays days))
             +:+ Permissive.page_close)).
Proof.
  intros Hproto.
  destruct (render_page name q rows Hproto)
    as (days & Hg & Hm & Hk & Hnd & Hr).
  exists days. split; [done|]. split; [done|]. split; [done|].
  split; [|done].
  assert (map (λ d, default [] (own days d)) (Permissive.sortedDays days) =
          map (λ d, rows_of_day d rows) (Permissive.sortedDays days)) as ->.
  { apply map_ext. intros d. apply Hm. }
  apply filed_rows_perm; [done|]. intros r Hr'. apply Hk. by exists r.
Qed.

Lemma groups_hold_every_row_once_witness :
  ∃ days,
    Permissive.group_rows [] (Permissive.scheduleData Sample.interleaved_week)
      = Ok days ∧
    Permutation
      (concat (map (λ d, default [] (own days d)) (Permissive.sortedDays days)))
      (Permissive.scheduleData Sample.interleaved_week).
Proof.
  destruct (groups_hold_every_row_once None EmptyString
              (Permissive.scheduleData Sample.interleaved_week))
    as (days & Hg & _ & _ & Hp & _).
  - intros r [<- | [<- | [<- | [<- | []]]]]; reflexivity.
  - exists days. split; [exact Hg | exact Hp].
Defined.

Lemma page_groups_before (st : Permissive.state) (name : param)
    (k1 k2 : string) :
  (∀ r, In r (Permissive.matchingRows st name) →
        inherited (Permissive.dayKey r) = false) →
  indexOf Permissive.dayOrder k1 < indexOf Permissive.dayOrder k2 →
  (∃ r, In r (Permissive.matchingRows st name) ∧ Permissive.dayKey r = k1) →
  (∃ r, In r (Permissive.matchingRows st name) ∧ Permissive.dayKey r = k2) →
  ∃ l1 l2 l3,
    NoDup (l1 ++ k1 :: l2 ++ k2 :: l3) ∧
    Permissive.get_schedule st name =
    Ok (Permissive.Response 200
          (Permissive.page_open
           +:+ Permissive.page_title name (Permissive.nameQuery name)
                 (length (Permissive.matchingRows st name))
           +:+ concat_str
                 (map (λ d, day_table d (Permissive.matchingRows st name))
                      (l1 ++ k1 :: l2 ++ k2 :: l3))
           +:+ Permissive.page_close)).
Proof.
  intros Hproto Hlt (r1 & Hr1 & Hk1) (r2 & Hr2 & Hk2).
  unfold Permissive.get_schedule.
  set (rows := Permissive.matchingRows st name) in *.
  assert ((length rows =? 0)%nat = false) as ->.
  { apply Nat.eqb_neq. destruct rows; [done | simpl; lia]. }
  rewrite andb_false_r.
  destruct (render_page name (Permissive.nameQuery name) rows Hproto)
    as (days & _ & Hm & Hk & Hnd & ->).
  assert (before k1 k2 (Permissive.sortedDays days)) as (l1 & l2 & l3 & Hl).
  { apply (sorted_before (indexOf Permissive.dayOrder)).
    - apply sortedDays_sorted.
    - apply Hk. by exists r1.
    - apply Hk. by exists r2.
    - done. }
  exists l1, l2, l3. rewrite <- Hl. split; [done|].
  assert (map (day_section days) (Permissive.sortedDays days) =
          map (λ d, day_table d rows) (Permissive.sortedDays days)) as ->; [|done].
  apply map_ext. intros k. unfold day_section, day_table. by rewrite Hm.
Qed.

(** X8. Rows without a usable day come first: when no selected row has a
    day naming a member of [Object.prototype], a selected row whose Day cell
    is missing or falsy is filed under the label Unknown, and on the page of
    server.js the Unknown group (like every group whose label is not one of
    the seven weekday names) stands before the group of any weekday. *)
Theorem rows_without_day_come_first (st : Permissive.state) (name : param)
    (r1 : gmap string value) (d2 : string) :
  (∀ r, In r (Permissive.matchingRows st name) →
        inherited (Permissive.dayKey r) = false) →
  In r1 (Permissive.matchingRows st name) →
  truthy (get r1 "Day") = false →
  0 ≤ indexOf Permissive.dayOrder d2 →
  (∃ r, In r (Permissive.matchingRows st name) ∧ get r "Day" = VStr d2) →
  Permissive.dayKey r1 = "Unknown" ∧
  ∃ l1 l2 l3,
    NoDup (l1 ++ "Unknown" :: l2 ++ d2 :: l3) ∧
    Permissive.get_schedule st name =
    Ok (Permissive.Response 200
          (Permissive.page_open
           +:+ Permissive.page_title name (Permissive.nameQuery name)
                 (length (Permissive.matchingRows st name))
           +:+ concat_str
                 (map (λ d, day_table d (Permissive.matchingRows st name))
                      (l1 ++ "Unknown" :: l2 ++ d2 :: l3))
           +:+ Permissive.page_close)).
Proof.
  intros Hproto Hr1 Hfalsy Hd2 (r2 & Hr2 & Hday2).
  assert (Permissive.dayKey r1 = "Unknown") as Hk1.
  { unfold Permissive.dayKey, or_else. by rewrite Hfalsy. }
  split; [done|].
  apply page_groups_before; [done| | |].
  - change (indexOf Permissive.dayOrder "Unknown") with (-1). lia.
  - by exists r1.
  - exists r2. split; [done|]. by apply dayKey_of_weekday.
Qed.

End GroupsMore.

Section GroupsAtInputs.

Lemma rows_without_day_come_first_witness :
  ∃ l1 l2 l3,
    NoDup (l1 ++ "Unknown" :: l2 ++ "Tuesday" :: l3) ∧
    Permissive.get_schedule Sample.day_missing None =
    Ok (Permissive.Response 200
          (Permissive.page_open
           +:+ Permissive.page_title None (Permissive.nameQuery None)
                 (length (Permissive.matchingRows Sample.day_missing None))
           +:+ concat_str
                 (map (λ d, day_table d
                              (Permissive.matchingRows Sample.day_missing None))
                      (l1 ++ "Unknown" :: l2 ++ "Tuesday" :: l3))
           +:+ Permissive.page_close)).
Proof.
  refine (proj2 (rows_without_day_come_first Sample.day_missing None
                   {[ "Name" := VStr "Alice"; "Time" := VStr "1pm" ]}
                   "Tuesday" _ _ _ _ _)).
  - intros r [<- | [<- | []]]; reflexivity.
  - right. by left.
  - reflexivity.
  - vm_compute. discriminate.
  - eexists. split; [by left | reflexivity].
Defined.

End GroupsAtInputs.

(** ** Reloading and uploading in the upload script *)

Section ReloadingMore.

Lemma strict_load_time (w : Strict.world) (st st' : Strict.state) :
  Strict.loadSchedule w st = Ok st' →
  Strict.scheduleData st' = loaded_rows w ∧
  Strict.lastLoadTime st' =
    match loaded_rows w with
    | [] => Strict.lastLoadTime st
    | _ => Some (Strict.now w)
    end.
Proof.
  unfold Strict.loadSchedule, Strict.stat, loaded_rows.
  destruct (Strict.disk w !! Fs.schedule_xlsx) as [[t [|sheets]]|]; cbn.
  - by intros [= <-].
  - destruct (Fs.first_sheet_rows sheets) as [|hdr [|r rows]]; cbn;
      by intros [= <-].
  - by intros [= <-].
Qed.

Lemma strict_served_from_memory (w : Strict.world) (st : Strict.state)
    (name : param) :
  blank (param_or_empty name) = false →
  Strict.scheduleData st ≠ [] →
  ¬ file_changed w st →
  Strict.get_schedule w st name =
    (st, Strict.lookup_name st (trim (param_or_empty name))).
Proof.
  intros Hb Hrows Hsame.
  destruct (strict_named_query w st name Hb)
    as (st' & -> & [(-> & _) | (_ & _ & [Hch | Hempty] & _)]); try done.
  by destruct (Strict.scheduleData st).
Qed.

(** X9. A query with a name that finds rows in memory and no newer file on
    disk is answered from memory alone: the upload script does not call
    [loadSchedule], leaves its state as it was and answers with the lookup
    in that table. This is also what happens when the file has been removed
    from the upload directory. *)
Theorem strict_query_without_reload (w : Strict.world) (st : Strict.state)
    (name : param) :
  blank (param_or_empty name) = false →
  Strict.scheduleData st ≠ [] →
  ¬ file_changed w st →
  Strict.get_schedule w st name =
    (st, Strict.lookup_name st (trim (param_or_empty name))) ∧
  Strict.reloads (fst (Strict.get_schedule w st name)) = Strict.reloads st.
Proof.
  intros Hb Hrows Hsame.
  by rewrite (strict_served_from_memory w st name Hb Hrows Hsame).
Qed.

Lemma strict_query_without_reload_witness :
  Strict.get_schedule (Strict.World ∅ 40) Sample.loaded (Some (QStr "bob")) =
    (Sample.loaded, Strict.lookup_name Sample.loaded "bob").
Proof.
  refine (proj1 (strict_query_without_reload (Strict.World ∅ 40) Sample.loaded
                   (Some (QStr "bob")) _ _ _)).
  - reflexivity.
  - discriminate.
  - intros (f & t & Hf & _). discriminate Hf.
Defined.

(** X10. A query with a name picks up a file that changed on disk: when the
    file was modified after the last successful load, the upload script
    reloads before it answers, so that the table it leaves and answers from
    is the one the upload directory holds now; it answers 404 for missing
    data when that table is empty. *)
Theorem strict_query_after_file_change (w : Strict.world) (st : Strict.state)
    (name : param) :
  blank (param_or_empty name) = false →
  file_changed w st →
  ∃ st',
    Strict.get_schedule w st name =
      (st', match loaded_rows w with
            | [] => Ok (Strict.Response 404 Strict.no_data_body)
            | _ => Strict.lookup_name st' (trim (param_or_empty name))
            end) ∧
    Strict.scheduleData st' = loaded_rows w ∧
    (Strict.reloads st < Strict.reloads st')%nat.
Proof.
  intros Hb Hch.
  destruct (strict_named_query w st name Hb)
    as (st' & -> & [(_ & Hno & _) | (Ht & Hr & _)]); [done|].
  exists st'. split; [|done]. rewrite Ht. by destruct (loaded_rows w).
Qed.

Lemma strict_query_after_file_change_witness :
  ∃ st',
    fst (Strict.get_schedule Sample.office_later Sample.loaded
           (Some (QStr "bob"))) = st' ∧
    Strict.scheduleData st' = loaded_rows Sample.office_later.
Proof.
  destruct (strict_query_after_file_change Sample.office_later Sample.loaded
              (Some (QStr "bob"))) as (st' & Hrun & Ht & _).
  - reflexivity.
  - eexists _, _. split; [reflexivity|]. split; [reflexivity|]. reflexivity.
  - exists st'. by rewrite Hrun.
Defined.

(** X11. A query right after a successful upload is answered from the
    uploaded rows: once an accepted workbook with at least one data row has
    been stored and loaded, a query with a name against the same directory
    does not reload, keeps the state and answers with the lookup in the
    table built from the uploaded data rows. *)
Theorem query_after_upload (w : Strict.world) (st : Strict.state)
    (file : Strict.upload) (hdr r : list value) (data : list (list value))
    (more : list (list (list value))) (name : param) :
  accepted file →
  Strict.payload file = Fs.Workbook ((hdr :: r :: data) :: more) →
  blank (param_or_empty name) = false →
  ∃ st' resp,
    Strict.post_admin_upload w st (Some file) = (stored w file, st', Ok resp) ∧
    Strict.scheduleData st' = map Strict.make_row (r :: data) ∧
    Strict.get_schedule (stored w file) st' name =
      (st', Strict.lookup_name st' (trim (param_or_empty name))).
Proof.
  intros Hacc Hp Hb.
  assert (loaded_rows (stored w file) = map Strict.make_row (r :: data)) as Hl.
  { unfold loaded_rows, stored. cbn [Strict.disk].
    rewrite lookup_insert_eq, Hp. done. }
  destruct (strict_load_effect (stored w file) st) as (st' & Hload & _ & Ht).
  destruct (strict_load_time _ _ _ Hload) as [_ Htime].
  rewrite Hl in Ht, Htime. cbn in Htime.
  exists st'. eexists. split; [|split; [done|]].
  - unfold Strict.post_admin_upload.
    rewrite upload_single_accepted by done. by rewrite Hload.
  - apply strict_served_from_memory; [done | by rewrite Ht |].
    intros (f & t & Hf & Ht' & Hlt). unfold stored in Hf. cbn in Hf.
    rewrite lookup_insert_eq in Hf. injection Hf as <-.
    rewrite Htime in Ht'. injection Ht' as <-. cbn in Hlt. lia.
Qed.

Lemma query_after_upload_witness :
  ∃ st' resp,
    Strict.post_admin_upload Sample.office Strict.initial
        (Some Sample.rota_upload)
      = (stored Sample.office Sample.rota_upload, st', Ok resp) ∧
    Strict.scheduleData st' =
      map Strict.make_row [Sample.alice_cells; Sample.bob_cells] ∧
    Strict.get_schedule (stored Sample.office Sample.rota_upload) st'
        (Some (QStr "Alice"))
      = (st', Strict.lookup_name st' "Alice").
Proof.
  apply (query_after_upload Sample.office Strict.initial
           Sample.rota_upload Sample.header Sample.alice_cells
           [Sample.bob_cells] [] (Some (QStr "Alice"))).
  - split; [reflexivity|]. split; [by right|]. vm_compute. discriminate.
  - reflexivity.
  - reflexivity.
Defined.

(** X12. An upload that passes the filter but holds no rows still gets the
    success response: when what [loadSchedule] reads from the stored file is
    empty (an unreadable file, a workbook without sheets, a sheet with at
    most the header row), the upload script answers 200 with the success
    message and 0 entries, empties the table and keeps the old load time. *)
Theorem upload_without_rows (w : Strict.world) (st : Strict.state)
    (file : Strict.upload) :
  accepted file →
  loaded_rows (stored w file) = [] →
  ∃ st',
    Strict.post_admin_upload w st (Some file) =
      (stored w file, st',
       Ok (Strict.Upload_response 200
             (Strict.Json_uploaded "Schedule uploaded and updated successfully!"
                0 (Strict.now w)))) ∧
    Strict.scheduleData st' = [] ∧
    Strict.lastLoadTime st' = Strict.lastLoadTime st.
Proof.
  intros Hacc Hnone.
  destruct (strict_load_effect (stored w file) st) as (st' & Hload & _ & Ht).
  destruct (strict_load_time _ _ _ Hload) as [_ Htime].
  rewrite Hnone in Ht, Htime.
  exists st'. split; [|done].
  unfold Strict.post_admin_upload.
  rewrite upload_single_accepted by done. by rewrite Hload, Ht.
Qed.

Lemma upload_without_rows_witness :
  ∃ st',
    Strict.post_admin_upload Sample.office Sample.loaded
        (Some Sample.broken_upload) =
      (stored Sample.office Sample.broken_upload, st',
       Ok (Strict.Upload_response 200
             (Strict.Json_uploaded "Schedule uploaded and updated successfully!"
                0 10))) ∧
    Strict.scheduleData st' = [] ∧
    Strict.lastLoadTime st' = Some 10.
Proof.
  apply (upload_without_rows Sample.office Sample.loaded Sample.broken_upload).
  - split; [reflexivity|]. split; [by right|]. vm_compute. discriminate.
  - reflexivity.
Defined.

(** X13. [loadSchedule] replaces the table, it never merges: in both scripts
    the table it leaves is the one the upload directory holds, whatever the
    table was before. The upload script moves its load time to the clock
    exactly when the table it loaded has at least one row; a load that ends
    with the empty table keeps the old load time. *)
Theorem loadSchedule_replaces_table (w : Strict.world) (sst : Strict.state)
    (disk : gmap string (Fs.file (list (gmap string value))))
    (pst : Permissive.state) :
  (∃ st',
     Strict.loadSchedule w sst = Ok st' ∧
     Strict.scheduleData st' = loaded_rows w ∧
     Strict.lastLoadTime st' =
       match loaded_rows w with
       | [] => Strict.lastLoadTime sst
       | _ => Some (Strict.now w)
       end) ∧
  (∃ st',
     Permissive.loadSchedule disk pst = Ok st' ∧
     Permissive.scheduleData st' = permissive_loaded_rows disk).
Proof.
  split.
  - destruct (strict_load_effect w sst) as (st' & Hload & _ & Ht).
    exists st'. split; [done|]. by apply strict_load_time.
  - unfold Permissive.loadSchedule, permissive_loaded_rows.
    destruct (disk !! Fs.schedule_xlsx) as [[t [|sheets]]|]; cbn;
      by eexists.
Qed.

End ReloadingMore.

(** ** States the upload script can reach *)

Section Reachable.

Lemma built_rows_string_names (rows : list (gmap string value)) :
  built_rows rows → Forall has_string_name rows.
Proof.
  intros [cells ->]. apply Forall_forall. intros r Hr.
  apply list_elem_of_fmap in Hr as (c & -> & _). apply make_row_string_name.
Qed.

Lemma loadSchedule_built (w : Strict.world) (st st' : Strict.state) :
  Strict.loadSchedule w st = Ok st' → built_rows (Strict.scheduleData st').
Proof.
  intros H. destruct (strict_loadSchedule_table w st) as (st0 & cells & H0 & Ht).
  rewrite H in H0. injection H0 as <-. by exists cells.
Qed.

Lemma upload_keeps_built (w w' : Strict.world) (st st' : Strict.state)
    (part : option Strict.upload) (resp : result Strict.upload_response) :
  Strict.post_admin_upload w st part = (w', st', resp) →
  built_rows (Strict.scheduleData st) → built_rows (Strict.scheduleData st').
Proof.
  unfold Strict.post_admin_upload.
  destruct (Strict.upload_single w part) as [w0 [[file|]|e]].
  - destruct (Strict.loadSchedule w0 st) as [st0|e] eqn:El.
    + intros [= _ <- _] _. by eapply loadSchedule_built.
    + by intros [= _ <- _].
  - by intros [= _ <- _].
  - by intros [= _ <- _].
Qed.

Lemma query_keeps_built (w : Strict.world) (st st' : Strict.state)
    (name : param) (resp : result Strict.response) :
  Strict.get_schedule w st name = (st', resp) →
  built_rows (Strict.scheduleData st) → built_rows (Strict.scheduleData st').
Proof.
  intros Hrun Hst. destruct (blank (param_or_empty name)) eqn:Hb.
  - rewrite (strict_bad_request_blank_state w st name Hb) in Hrun.
    by injection Hrun as <- _.
  - destruct (strict_named_query w st name Hb)
      as (st0 & H0 & [(-> & _) | (_ & _ & _ & st1 & Hl)]);
      rewrite H0 in Hrun; injection Hrun as <- _; [done|].
    by eapply loadSchedule_built.
Qed.

Lemma reachable_built (st : Strict.state) :
  reachable st → built_rows (Strict.scheduleData st).
Proof.
  induction 1 as [|w st part w' st' resp _ IH Hup|w st name st' resp _ IH Hq].
  - by exists [].
  - by eapply upload_keeps_built.
  - by eapply query_keeps_built.
Qed.

(** X14. The upload script cannot crash on a query: in every state it can
    reach from its initial state through uploads and queries, whatever the
    upload directory holds at each request, all rows of the table were built
    by [loadSchedule] (five trimmed string fields), so that the handler of
    [GET /schedule] throws nothing and answers 200, 400 or 404. *)
Theorem reachable_states_answer (st : Strict.state) (w : Strict.world)
    (name : param) :
  reachable st →
  built_rows (Strict.scheduleData st) ∧
  ∃ st' resp,
    Strict.get_schedule w st name = (st', Ok resp) ∧
    (Strict.status resp = 200%nat ∨ Strict.status resp = 400%nat ∨
     Strict.status resp = 404%nat).
Proof.
  intros Hreach. pose proof (reachable_built st Hreach) as Hst.
  split; [done|]. destruct (blank (param_or_empty name)) eqn:Hb.
  - rewrite (strict_bad_request_blank_state w st name Hb).
    eexists _, _. split; [done|]. cbn. auto.
  - destruct (strict_named_query w st name Hb) as (st' & Hrun & _).
    assert (built_rows (Strict.scheduleData st')) as Hst'.
    { by eapply query_keeps_built. }
    rewrite Hrun. exists st'.
    destruct (length (Strict.scheduleData st') =? 0)%nat.
    { eexists. split; [done|]. cbn. auto. }
    destruct (strict_matches_iff st' (trim (param_or_empty name)) ∅
                (built_rows_string_names _ Hst')) as (rows & Hrows & _).
    rewrite (strict_lookup_response _ _ _ Hrows).
    eexists. split; [done|]. destruct rows; cbn; auto.
Qed.

Lemma reachable_states_answer_witness :
  ∃ st' resp,
    Strict.get_schedule Sample.office Strict.initial (Some (QStr "alice"))
      = (st', Ok resp) ∧
    (Strict.status resp = 200%nat ∨ Strict.status resp = 400%nat ∨
     Strict.status resp = 404%nat).
Proof.
  apply (reachable_states_answer Strict.initial Sample.office
           (Some (QStr "alice"))).
  constructor.
Defined.

End Reachable.

(** ** The two matching policies side by side *)

Section PoliciesMore.

Lemma filter_rows_In (p : gmap string value → result bool)
    (table rows : list (gmap string value)) (r : gmap string value) :
  Strict.filter_rows p table = Ok rows →
  In r rows → In r table ∧ p r = Ok true.
Proof.
  revert rows. induction table as [|x table IH]; intros rows.
  - by intros [= <-] [].
  - cbn [Strict.filter_rows]. destruct (p x) as [keep|e] eqn:Ep; [|done].
    cbn [bind]. destruct (Strict.filter_rows p table) as [rest|e]; [|done].
    cbn [bind]. intros [= <-] Hin. destruct keep.
    + destruct Hin as [<- | Hin]; [by split; [left|]|].
      destruct (IH rest eq_refl Hin). split; [by right | done].
    + destruct (IH rest eq_refl Hin). split; [by right | done].
Qed.

Lemma includes_refl (s : string) : includes s s = true.
Proof.
  apply includes_spec. exists EmptyString, EmptyString.
  by rewrite str_app_nil_r.
Qed.

(** X15. The substring policy of server.js contains the equality policy of
    the upload script: on the same table, every row the upload script
    selects for a name is also selected by server.js for that name. *)
Theorem exact_match_is_substring_match (sst : Strict.state)
    (pst : Permissive.state) (name : param)
    (rows : list (gmap string value)) (r : gmap string value) :
  Strict.scheduleData sst = Permissive.scheduleData pst →
  blank (param_or_empty name) = false →
  Strict.matches sst (trim (param_or_empty name)) = Ok rows →
  In r rows →
  In r (Permissive.matchingRows pst name).
Proof.
  intros Htable Hb Hrows Hin.
  unfold Strict.matches in Hrows.
  destruct (filter_rows_In _ _ _ _ Hrows Hin) as [Hr Heq].
  unfold Permissive.matchingRows.
  rewrite permissive_query_blank, Hb. apply filter_In.
  split; [by rewrite <- Htable|].
  unfold Strict.name_equals, Strict.toLowerCase_of in Heq.
  unfold Permissive.name_matches, Permissive.nameText, Permissive.nameQuery.
  destruct (get r "Name") as [| |b|n|s]; try done.
  cbn [bind] in Heq. injection Heq as Heq. apply String.eqb_eq in Heq.
  assert (String_ (or_else (VStr s) (VStr EmptyString)) = s) as ->.
  { by destruct s. }
  rewrite Heq. apply includes_refl.
Qed.

Lemma exact_match_is_substring_match_witness :
  In (Strict.make_row Sample.bob_cells)
     (Permissive.matchingRows
        (Permissive.State (Strict.scheduleData Sample.loaded) [])
        (Some (QStr " BOB "))).
Proof.
  apply (exact_match_is_substring_match Sample.loaded
           (Permissive.State (Strict.scheduleData Sample.loaded) [])
           (Some (QStr " BOB ")) [Strict.make_row Sample.bob_cells]).
  - reflexivity.
  - reflexivity.
  - reflexivity.
  - by left.
Defined.

(** X16. Letter case and outer whitespace of the query do not matter: two
    queries whose trimmed texts are equal under case-insensitive comparison
    select the same rows, in the upload script and in server.js. *)
Theorem query_case_is_irrelevant (sst : Strict.state) (pst : Permissive.state)
    (a b : param) :
  ci_eq (trim (param_or_empty a)) (trim (param_or_empty b)) →
  Strict.matches sst (trim (param_or_empty a)) =
    Strict.matches sst (trim (param_or_empty b)) ∧
  Permissive.matchingRows pst a = Permissive.matchingRows pst b.
Proof.
  intros Hci. apply toLowerCase_eq in Hci. split.
  - unfold Strict.matches. by rewrite Hci.
  - unfold Permissive.matchingRows, Permissive.nameQuery. by rewrite Hci.
Qed.

Lemma query_case_is_irrelevant_witness :
  Strict.matches Sample.loaded "ALICE" = Strict.matches Sample.loaded "alice" ∧
  Permissive.matchingRows Sample.interleaved_week (Some (QStr "  ALICE"))
  = Permissive.matchingRows Sample.interleaved_week (Some (QStr "alice ")).
Proof.
  apply (query_case_is_irrelevant Sample.loaded Sample.interleaved_week
           (Some (QStr "  ALICE")) (Some (QStr "alice "))).
  repeat (constructor; [vm_compute; auto|]). constructor.
Defined.

End PoliciesMore.

(** ** Requests that change nothing, rows that cannot be found *)

Section EdgesMore.

(** X17. An upload request the route refuses before anything is stored (no
    file part, a file part under another field name, a declared type other
    than the two Excel types) changes nothing: the upload directory, the
    table, the load time and the console are as before, and the answer is
    400 with the reason. *)
Theorem refused_upload_changes_nothing (w : Strict.world) (st : Strict.state)
    (part : option Strict.upload) :
  (∀ file, part = Some file →
     Strict.fieldname file ≠ "file" ∨
     existsb (String.eqb (Strict.mimetype file)) Strict.allowed = false) →
  ∃ reason,
    Strict.post_admin_upload w st part =
      (w, st, Ok (Strict.Upload_response 400 (Strict.Json_error reason))) ∧
    In reason refusal_reasons.
Proof.
  intros Hrefused. destruct part as [file|].
  - unfold Strict.post_admin_upload, Strict.upload_single, Strict.fileFilter.
    destruct (String.eqb (Strict.fieldname file) "file") eqn:Ef; cbn [negb].
    + destruct (Hrefused file eq_refl) as [Hf | ->].
      * apply String.eqb_eq in Ef. done.
      * eexists. split; [done|]. simpl. tauto.
    + eexists. split; [done|]. simpl. tauto.
  - eexists. split; [done|]. simpl. tauto.
Qed.

Lemma refused_upload_changes_nothing_witness :
  ∃ reason,
    Strict.post_admin_upload Sample.office Sample.loaded
      (Some (Strict.Upload "file" "rota.pdf" "application/pdf" 100 Sample.book))
    = (Sample.office, Sample.loaded,
       Ok (Strict.Upload_response 400 (Strict.Json_error reason))) ∧
    In reason refusal_reasons.
Proof.
  apply (refused_upload_changes_nothing Sample.office Sample.loaded
           (Some (Strict.Upload "file" "rota.pdf" "application/pdf" 100
                    Sample.book))).
  intros file [= <-]. right. reflexivity.
Defined.

Lemma includes_in_empty (q : string) :
  q ≠ EmptyString → includes EmptyString q = false.
Proof.
  intros Hq. destruct (includes EmptyString q) eqn:E; [|done].
  apply includes_spec in E as (pre & post & H). symmetry in H.
  apply str_app_eq_nil in H as [_ H]. by apply str_app_eq_nil in H as [-> _].
Qed.

(** X18. A row with an empty Name can never be found by name: in the upload
    script no query with a name selects a row whose Name field is the empty
    string (which is what a Name cell that is empty, blank, 0 or false is
    stored as), and in server.js no query with a name selects a row whose
    Name text is empty (Name missing, empty, 0 or false); server.js shows
    such a row only in the full schedule. *)
Theorem nameless_rows_are_never_found (sst : Strict.state)
    (pst : Permissive.state) (name : param) (r : gmap string value) :
  blank (param_or_empty name) = false →
  Permissive.nameText r = EmptyString →
  (get r "Name" = VStr EmptyString →
   ∀ rows, Strict.matches sst (trim (param_or_empty name)) = Ok rows →
           ¬ In r rows) ∧
  ¬ In r (Permissive.matchingRows pst name).
Proof.
  intros Hb Htext.
  assert (toLowerCase (trim (param_or_empty name)) ≠ EmptyString) as Hq.
  { apply is_empty_false. by rewrite toLowerCase_empty, trim_blank. }
  split.
  - intros Hname rows Hrows Hin. unfold Strict.matches in Hrows.
    destruct (filter_rows_In _ _ _ _ Hrows Hin) as [_ Heq].
    unfold Strict.name_equals in Heq. rewrite Hname in Heq. cbn in Heq.
    injection Heq as Heq.
    destruct (toLowerCase (trim (param_or_empty name))); done.
  - unfold Permissive.matchingRows. rewrite permissive_query_blank, Hb.
    rewrite filter_In. intros [_ Hm].
    unfold Permissive.name_matches, Permissive.nameQuery in Hm.
    rewrite Htext in Hm. cbn [toLowerCase] in Hm.
    by rewrite includes_in_empty in Hm.
Qed.

Lemma nameless_rows_are_never_found_witness :
  ¬ In (Strict.make_row [VNum "0"; VStr "Monday"])
       (Permissive.matchingRows
          (Permissive.State [Strict.make_row [VNum "0"; VStr "Monday"]] [])
          (Some (QStr "0"))).
Proof.
  refine (proj2 (nameless_rows_are_never_found Sample.loaded
                   (Permissive.State
                      [Strict.make_row [VNum "0"; VStr "Monday"]] [])
                   (Some (QStr "0"))
                   (Strict.make_row [VNum "0"; VStr "Monday"]) _ _)).
  - reflexivity.
  - reflexivity.
Defined.

End EdgesMore.

(** ** Where server.js departs from its matching and ordering rules *)

Section Departures.

(** C1 at failing inputs, both in server.js. A row whose Name cell holds the
    number 0 is in the table and its Name text contains the query 0, yet the
    handler selects no row and answers 404: [row.Name || ""] reads the
    number 0 as the empty text. And a row named Carol whose Day cell reads
    toString is selected for the query carol, yet it is not returned: the
    handler throws while it groups the selected rows. *)
Theorem name_matching_misses_rows :
  (In Sample.zero_row (Permissive.scheduleData Sample.numbered) ∧
   ci_contains (field_text (get Sample.zero_row "Name")) "0" ∧
   Permissive.matchingRows Sample.numbered (Some (QStr "0")) = [] ∧
   Permissive.get_schedule Sample.numbered (Some (QStr "0")) =
     Ok (Permissive.Response 404
           (Permissive.not_found_body (Some (QStr "0"))))) ∧
  (In Sample.tostring_row (Permissive.scheduleData Sample.mixed_days) ∧
   ci_contains (field_text (get Sample.tostring_row "Name")) "carol" ∧
   Permissive.matchingRows Sample.mixed_days (Some (QStr "carol")) =
     [Sample.tostring_row] ∧
   Permissive.get_schedule Sample.mixed_days (Some (QStr "carol")) =
     Throw (TypeError "days[day].push is not a function")).
Proof.
  split.
  - split; [by left|]. split; [by apply includes_lower|].
    split; reflexivity.
  - split; [right; right; by left|]. split; [by apply includes_lower|].
    split; reflexivity.
Qed.

(** C8 at a failing input. With a Tuesday row, a Monday row and a row whose
    Day cell reads toString in the table, server.js renders no page for a
    query without a name: the lookup [days[day]] finds
    [Object.prototype.toString], which has no [push], and the handler
    throws instead of listing the Monday group before the Tuesday group. *)
Theorem day_order_lost_on_prototype_day :
  (∃ r, In r (Permissive.scheduleData Sample.mixed_days) ∧
        get r "Day" = VStr "Monday") ∧
  (∃ r, In r (Permissive.scheduleData Sample.mixed_days) ∧
        get r "Day" = VStr "Tuesday") ∧
  Permissive.get_schedule Sample.mixed_days None =
    Throw (TypeError "days[day].push is not a function").
Proof.
  split; [|split].
  - eexists. split; [right; by left | reflexivity].
  - eexists. split; [by left | reflexivity].
  - reflexivity.
Qed.

End Departures.

(** ** Matching and ordering where the rules hold *)

Section RulesHold.

Lemma nameText_field_text (r : gmap string value) :
  (∃ s, get r "Name" = VStr s) ∨ get r "Name" = VUndefined →
  Permissive.nameText r = field_text (get r "Name").
Proof.
  unfold Permissive.nameText. intros [[s ->] | ->]; [|done]. by destruct s.
Qed.

(** X19. For names that are text the two matching rules hold as selection
    rules. For a query whose trimmed text [name] is not blank: if every row
    of the upload script's table was built by [loadSchedule], the rows it
    selects are exactly the rows of the table whose Name text equals [name]
    under case-insensitive comparison; and a row whose Name cell is text or
    missing is selected by server.js exactly when it is in the table and its
    Name text contains [name] as a case-insensitive substring. *)
Theorem textual_names_follow_the_policy (name : param) (sst : Strict.state)
    (pst : Permissive.state) (r : gmap string value) :
  blank (param_or_empty name) = false →
  built_rows (Strict.scheduleData sst) →
  (∃ s, get r "Name" = VStr s) ∨ get r "Name" = VUndefined →
  (∃ rows,
     Strict.matches sst (trim (param_or_empty name)) = Ok rows ∧
     (In r rows ↔
      In r (Strict.scheduleData sst) ∧
      ci_eq (field_text (get r "Name")) (trim (param_or_empty name)))) ∧
  (In r (Permissive.matchingRows pst name) ↔
   In r (Permissive.scheduleData pst) ∧
   ci_contains (field_text (get r "Name")) (trim (param_or_empty name))).
Proof.
  intros Hb Hbuilt Htext.
  assert (trim (param_or_empty name) ≠ EmptyString) as Hne.
  { apply is_empty_false. by rewrite trim_blank. }
  split.
  - destruct (strict_matches_iff sst (trim (param_or_empty name)) r
                (built_rows_string_names _ Hbuilt)) as (rows & Hrows & Hiff).
    exists rows. split; [done|]. rewrite Hiff. split.
    + intros [Hin (s & Hs & Hci)]. split; [done|]. by rewrite Hs.
    + intros [Hin Hci]. split; [done|].
      pose proof (built_rows_string_names _ Hbuilt) as Hall.
      rewrite Forall_forall in Hall. destruct (Hall r) as [s Hs].
      { by apply list_elem_of_In. }
      exists s. split; [done|]. by rewrite Hs in Hci.
  - rewrite <- nameText_field_text by done. by apply permissive_matches_iff.
Qed.

Lemma textual_names_follow_the_policy_witness :
  In (Strict.make_row Sample.alice_cells)
     (Permissive.matchingRows
        (Permissive.State (Strict.scheduleData Sample.loaded) [])
        (Some (QStr " LIC "))) ∧
  ∃ rows,
    Strict.matches Sample.loaded "LIC" = Ok rows ∧
    ¬ In (Strict.make_row Sample.alice_cells) rows.
Proof.
  destruct (textual_names_follow_the_policy (Some (QStr " LIC ")) Sample.loaded
              (Permissive.State (Strict.scheduleData Sample.loaded) [])
              (Strict.make_row Sample.alice_cells))
    as [(rows & Hrows & Hstrict) Hperm].
  - reflexivity.
  - by exists [Sample.alice_cells; Sample.bob_cells].
  - left. by eexists.
  - split.
    + apply Hperm. split; [by left|]. by apply includes_lower.
    + exists rows. split; [exact Hrows|]. intros Hin.
      apply Hstrict in Hin as [_ Hci]. apply toLowerCase_eq in Hci.
      discriminate Hci.
Defined.





End RulesHold.
